(** * AI timetable generator: a shallow embedding of the request builder,
      the response check and the drag-and-drop timetable editor.

    Sources embedded here:
    - [src/App.tsx]: [getGradeFromClassName], [handleGradeCountChange],
      [handleDayToggle], [timeSlots], [totalClasses], [maxPossibleClasses],
      [canGenerate], [handleGenerateClick], [handleMoveClass],
      [handleClassDragStart], [handleDragEnd] and the bounds given to the
      number inputs;
    - [src/components/TimetableDisplay.tsx]: [getGradeColor],
      [handleDragOver], [handleDrop], [handleDragLeave];
    - [components/GradeInput.tsx]: [NumberInput] with [handleIncrement],
      [handleDecrement], [handleInputChange];
    - [src/services/geminiService.ts]: [generateSingleRoomResponseSchema],
      [generateResponseSchema], [generatePrompt], [generateTimetable];
    - the type declarations [DayOfWeek], [Grade], [GradeCounts],
      [TimetableSlot], [TimetableDay], [TimetableData], [MultiRoomTimetable].

    Conventions.  A JavaScript number that the program only ever uses as an
    integer is a [Z].  A JavaScript string is a [string], one character per
    code unit (the model covers the names whose code units are below 256).
    An object used as a dictionary is a [gmap]; an array is a [list]. *)

From stdpp Require Import gmap strings list fin_maps pretty sorting.

Open Scope Z_scope.

(* ===================================================================== *)
(** * Strings *)
(* ===================================================================== *)

(** The double quote character, for the texts that contain one. *)
Definition dquote : string := String (Ascii.ascii_of_nat 34) EmptyString.

(** The line feed, for the multi-line template literal and [join('\n')]. *)
Definition newline : string := String (Ascii.ascii_of_nat 10) EmptyString.

(** [Array.prototype.join]. *)
Fixpoint join (sep : string) (l : list string) : string :=
  match l with
  | [] => EmptyString
  | [x] => x
  | x :: rest => x +:+ sep +:+ join sep rest
  end.

(** [is_substring p s]: the text [p] occurs somewhere in [s]. *)
Definition is_substring (p s : string) : Prop :=
  ∃ pre post : string, s = pre +:+ p +:+ post.

(** [strip_prefix p s] is what remains of [s] after its prefix [p], when
    [s] starts with [p]. *)
Fixpoint strip_prefix (p s : string) : option string :=
  match p with
  | EmptyString => Some s
  | String a p' =>
      match s with
      | EmptyString => None
      | String b s' => if decide (a = b) then strip_prefix p' s' else None
      end
  end.

(* ===================================================================== *)
(** * Declared types and constants *)
(* ===================================================================== *)

(** [type DayOfWeek = 'Monday' | 'Tuesday' | 'Wednesday' | 'Thursday' | 'Friday'] *)
Inductive DayOfWeek : Type :=
  | Monday | Tuesday | Wednesday | Thursday | Friday.

(** The string each member of the union is at run time. *)
Definition day_name (d : DayOfWeek) : string :=
  match d with
  | Monday => "Monday"
  | Tuesday => "Tuesday"
  | Wednesday => "Wednesday"
  | Thursday => "Thursday"
  | Friday => "Friday"
  end.

Definition day_code (d : DayOfWeek) : nat :=
  match d with
  | Monday => 0 | Tuesday => 1 | Wednesday => 2 | Thursday => 3 | Friday => 4
  end%nat.

Definition day_of_code (n : nat) : DayOfWeek :=
  match n with
  | 0 => Monday | 1 => Tuesday | 2 => Wednesday | 3 => Thursday | _ => Friday
  end%nat.

#[global] Instance DayOfWeek_eq_dec : EqDecision DayOfWeek.
Proof. solve_decision. Defined.

#[global] Instance DayOfWeek_countable : Countable DayOfWeek.
Proof. refine (inj_countable' day_code day_of_code _); by intros []. Defined.

(** [type Grade = 1 | 2 | 3 | 4 | 5] *)
Inductive Grade : Type := G1 | G2 | G3 | G4 | G5.

Definition grade_number (g : Grade) : Z :=
  match g with G1 => 1 | G2 => 2 | G3 => 3 | G4 => 4 | G5 => 5 end.

#[global] Instance Grade_eq_dec : EqDecision Grade.
Proof. solve_decision. Defined.

(** Modelled from the spec: the constant [DAYS_OF_WEEK] of [./constants],
    which is imported by [App.tsx] and not part of the sources at hand.  The
    spec gives the five weekday names Monday..Friday in calendar order. *)
Definition DAYS_OF_WEEK : list DayOfWeek :=
  [Monday; Tuesday; Wednesday; Thursday; Friday].

(** Modelled from the spec: the constant [GRADES] of [./constants], not part
    of the sources at hand.  The spec gives the grade identifiers 1 to 5. *)
Definition GRADES : list Grade := [G1; G2; G3; G4; G5].

(** [type GradeCounts = Record<Grade, number>]: a count for each grade. *)
Definition GradeCounts : Type := Grade → Z.

(** [Object.entries] and [Object.values] of a [GradeCounts].  Its keys are
    the grades of [GRADES], set by the initializer of the state; they are
    integer indices, which JavaScript enumerates in ascending order. *)
Definition gradeCounts_entries (gc : GradeCounts) : list (Grade * Z) :=
  map (λ g, (g, gc g)) GRADES.

Definition gradeCounts_values (gc : GradeCounts) : list Z :=
  map snd (gradeCounts_entries gc).

(** [type TimetableSlot = string[]], [TimetableDay = Record<TimeSlot, TimetableSlot>],
    [TimetableData = Record<DayOfWeek, TimetableDay>],
    [MultiRoomTimetable = Record<string, TimetableData>]. *)
Abbreviation TimetableSlot := (list string).
Abbreviation TimetableDay := (gmap string (list string)).
Abbreviation TimetableData := (gmap DayOfWeek (gmap string (list string))).
Abbreviation MultiRoomTimetable :=
  (gmap string (gmap DayOfWeek (gmap string (list string)))).

(** [DraggedItem['from']]: a room, a day and a slot. *)
Record SlotRef : Type := mkSlotRef {
  room : string;
  day : DayOfWeek;
  slot : string
}.

#[global] Instance SlotRef_eq_dec : EqDecision SlotRef.
Proof. solve_decision. Defined.

(* ===================================================================== *)
(** * [getGradeFromClassName] (App.tsx and TimetableDisplay.tsx, same text) *)
(* ===================================================================== *)

(** [\d] without the unicode flag: the ten characters 0 to 9. *)
Definition is_digit (c : Ascii.ascii) : bool :=
  ((48 <=? Ascii.nat_of_ascii c) && (Ascii.nat_of_ascii c <=? 57))%nat.

(** [parseInt(d, 10)] on a one-digit string. *)
Definition digit_value (c : Ascii.ascii) : Z := Z.of_nat (Ascii.nat_of_ascii c) - 48.

(** An attempt of the pattern [/Grade (\d)/] at the start of [s]: the
    captured digit. *)
Definition match_Grade_here (s : string) : option Ascii.ascii :=
  match strip_prefix "Grade " s with
  | Some (String d _) => if is_digit d then Some d else None
  | _ => None
  end.

(** [className.match(/Grade (\d)/)]: the pattern is tried at each start
    position from left to right, and the first success is the match; the
    result is its capture group 1. *)
Fixpoint match_Grade_digit (s : string) : option Ascii.ascii :=
  match match_Grade_here s with
  | Some d => Some d
  | None =>
      match s with
      | EmptyString => None
      | String _ s' => match_Grade_digit s'
      end
  end.

(** The captured group is a one-character string, hence truthy, so the
    guard [match && match[1]] is the test that there is a match. *)
Definition getGradeFromClassName (className : string) : option Z :=
  match match_Grade_digit className with
  | Some d => Some (digit_value d)
  | None => None
  end.

(** The pattern matches [s] at offset [i] and captures [d] there. *)
Definition Grade_digit_at (s : string) (i : nat) (d : Ascii.ascii) : Prop :=
  ∃ pre post : string,
    s = pre +:+ "Grade " +:+ String d post
    ∧ String.length pre = i ∧ is_digit d = true.

(** A reading of "the digit immediately following the first occurrence of
    the substring [Grade ]": locate the first occurrence of the six
    characters, then look at the character after them. *)
Fixpoint after_first_occurrence (p s : string) : option string :=
  match strip_prefix p s with
  | Some rest => Some rest
  | None =>
      match s with
      | EmptyString => None
      | String _ s' => after_first_occurrence p s'
      end
  end.

Definition digit_after_first_Grade (className : string) : option Z :=
  match after_first_occurrence "Grade " className with
  | Some (String d _) => if is_digit d then Some (digit_value d) else None
  | _ => None
  end.

(* ===================================================================== *)
(** * Application state (the [useState] cells of [App]) *)
(* ===================================================================== *)

Record DraggedItem : Type := mkDraggedItem {
  dragged_className : string;
  dragged_from : SlotRef
}.

Record AppState : Type := mkAppState {
  gradeCounts : GradeCounts;
  maxConcurrentClasses : Z;
  sessionsPerDay : Z;
  numberOfRooms : Z;
  includedDays : list DayOfWeek;
  timetable : option MultiRoomTimetable;
  isLoading : bool;
  error : option string;
  draggedItem : option DraggedItem
}.

Definition setIncludedDays (v : list DayOfWeek) (s : AppState) : AppState :=
  mkAppState (gradeCounts s) (maxConcurrentClasses s) (sessionsPerDay s)
    (numberOfRooms s) v (timetable s) (isLoading s) (error s) (draggedItem s).

Definition setTimetable (v : option MultiRoomTimetable) (s : AppState) : AppState :=
  mkAppState (gradeCounts s) (maxConcurrentClasses s) (sessionsPerDay s)
    (numberOfRooms s) (includedDays s) v (isLoading s) (error s) (draggedItem s).

Definition setIsLoading (v : bool) (s : AppState) : AppState :=
  mkAppState (gradeCounts s) (maxConcurrentClasses s) (sessionsPerDay s)
    (numberOfRooms s) (includedDays s) (timetable s) v (error s) (draggedItem s).

Definition setError (v : option string) (s : AppState) : AppState :=
  mkAppState (gradeCounts s) (maxConcurrentClasses s) (sessionsPerDay s)
    (numberOfRooms s) (includedDays s) (timetable s) (isLoading s) v (draggedItem s).

(** The initial values given to [useState]; every grade of [GRADES] starts
    with the count 0. *)
Definition initialState : AppState :=
  {| gradeCounts := λ _, 0;
     maxConcurrentClasses := 3;
     sessionsPerDay := 2;
     numberOfRooms := 1;
     includedDays := DAYS_OF_WEEK;
     timetable := None;
     isLoading := false;
     error := None;
     draggedItem := None |}.

(* ===================================================================== *)
(** * [handleDayToggle] *)
(* ===================================================================== *)

(** [Array.prototype.indexOf]: the first index of [x], or -1. *)
Definition indexOf {A} `{EqDecision A} (l : list A) (x : A) : Z :=
  match list_find (λ y, y = x) l with
  | Some (i, _) => Z.of_nat i
  | None => -1
  end.

(** The order a comparator [cmp] induces: [a] may stay before [b]. *)
Definition cmp_le {A} (cmp : A → A → Z) : relation A := λ a b, cmp a b ≤ 0.

#[global] Instance cmp_le_dec {A} (cmp : A → A → Z) : RelDecision (cmp_le cmp).
Proof. intros a b. unfold cmp_le. apply _. Defined.

(** [Array.prototype.sort(cmp)].  The engine's algorithm is not fixed by the
    language; a merge sort stands for it.  Wherever two elements that compare
    equal are the same value, every sorting algorithm returns this list. *)
Definition sort_by {A} (cmp : A → A → Z) (l : list A) : list A :=
  merge_sort (cmp_le cmp) l.

Definition compareDays (a b : DayOfWeek) : Z :=
  indexOf DAYS_OF_WEEK a - indexOf DAYS_OF_WEEK b.

(** The updater passed to [setIncludedDays]. *)
Definition toggleDay (day : DayOfWeek) (prev : list DayOfWeek) : list DayOfWeek :=
  let newDays :=
    if bool_decide (day ∈ prev)
    then filter (λ d, d ≠ day) prev
    else prev ++ [day] in
  sort_by compareDays newDays.

Definition handleDayToggle (day : DayOfWeek) (s : AppState) : AppState :=
  setIncludedDays (toggleDay day (includedDays s)) s.

(* ===================================================================== *)
(** * Derived values and [canGenerate] *)
(* ===================================================================== *)

(** [Array.from({ length: n }, (_, i) => f(i))] *)
Definition array_from_length {A} (n : Z) (f : Z → A) : list A :=
  f <$> seqZ 0 n.

(** The template [`Slot ${i}`]. *)
Definition slotName (i : Z) : string := "Slot " +:+ pretty i.

(** The template [`Room ${i}`]. *)
Definition roomName (i : Z) : string := "Room " +:+ pretty i.


Definition totalClasses (s : AppState) : Z :=
  foldl (λ sum count, sum + count) 0 (gradeCounts_values (gradeCounts s)).

Definition maxPossibleClasses (s : AppState) : Z :=
  maxConcurrentClasses s * Z.of_nat (length (includedDays s))
  * sessionsPerDay s * numberOfRooms s.

Definition canGenerate (s : AppState) : bool :=
  bool_decide (totalClasses s > 0)
  && bool_decide (Z.of_nat (length (includedDays s)) > 0)
  && bool_decide (totalClasses s <= maxPossibleClasses s)
  && negb (isLoading s).

(** The attribute [disabled={!canGenerate}] of the generation button. *)
Definition generateButton_disabled (s : AppState) : bool := negb (canGenerate s).

(* ===================================================================== *)
(** * The request builder (geminiService.ts) *)
(* ===================================================================== *)

(** The schema objects the builder makes: [{type: STRING}],
    [{type: ARRAY, items}], [{type: OBJECT, properties, required}]. *)
#[warnings="-register-all"]
Inductive Schema : Type :=
  | SchemaString
  | SchemaArray (items : Schema)
  | SchemaObject (properties : gmap string Schema) (required : list string).

(** The numbers [1 .. n] a loop [for (let i = 1; i <= n; i++)] runs over. *)
Definition for_1_to (n : Z) : list Z := seqZ 1 n.

Definition generateSingleRoomResponseSchema
    (sessionsPerDay : Z) (includedDays : list DayOfWeek) : Schema :=
  let timeSlotProperties : gmap string Schema :=
    foldl (λ props i, <[slotName i := SchemaArray SchemaString]> props)
          ∅ (for_1_to sessionsPerDay) in
  let requiredSlots := slotName <$> for_1_to sessionsPerDay in
  let daySchema := SchemaObject timeSlotProperties requiredSlots in
  let timetableProperties : gmap string Schema :=
    foldl (λ props day, <[day_name day := daySchema]> props) ∅ includedDays in
  SchemaObject timetableProperties (day_name <$> includedDays).

Definition generateResponseSchema
    (sessionsPerDay : Z) (includedDays : list DayOfWeek) (numberOfRooms : Z)
    : Schema :=
  let singleRoomSchema :=
    generateSingleRoomResponseSchema sessionsPerDay includedDays in
  let roomProperties : gmap string Schema :=
    foldl (λ props i, <[roomName i := singleRoomSchema]> props)
          ∅ (for_1_to numberOfRooms) in
  let requiredRooms := roomName <$> for_1_to numberOfRooms in
  SchemaObject roomProperties requiredRooms.

(** The number of keys of a schema's [properties]. *)
Definition schema_key_count (sch : Schema) : nat :=
  match sch with
  | SchemaObject properties _ => size properties
  | _ => 0%nat
  end.

(** The pieces of a template literal put end to end. *)
Definition concat_strings (pieces : list string) : string :=
  foldr String.append "" pieces.

Definition prompt_classList (gradeCounts : GradeCounts) : string :=
  join newline
    ((λ '(grade, count),
        "- Grade " +:+ pretty (grade_number grade) +:+ ": " +:+ pretty count
        +:+ " classes") <$> gradeCounts_entries gradeCounts).

Definition prompt_timeSlotList (sessionsPerDay : Z) : string :=
  join ", " (array_from_length sessionsPerDay (λ i, slotName (i + 1))).

Definition prompt_dayList (includedDays : list DayOfWeek) : string :=
  join ", " (day_name <$> includedDays).

Definition prompt_pieces
    (gradeCounts : GradeCounts) (maxConcurrentClasses sessionsPerDay : Z)
    (includedDays : list DayOfWeek) (numberOfRooms : Z) : list string :=
  let classList := prompt_classList gradeCounts in
  let timeSlotList := prompt_timeSlotList sessionsPerDay in
  let dayList := prompt_dayList includedDays in
  [
    newline;
    "    You are an expert school timetable scheduler. Your task is to create a weekly timetable for a primary school with grades 1 through 5, distributing classes across ";
    pretty numberOfRooms; " available rooms."; newline; newline;
    "    Here are the constraints:"; newline;
    "    1.  **Classes to Schedule:**"; newline; "        "; classList;
    newline; "        (When you create the schedule, name the classes like ";
    dquote; "Grade 1 - A"; dquote; ", "; dquote; "Grade 1 - B"; dquote; ", ";
    dquote; "Grade 2 - A"; dquote; ", etc.)"; newline; newline;
    "    2.  **Schedule Structure:**"; newline; "        - There are ";
    pretty numberOfRooms; " rooms available, named "; dquote; "Room 1";
    dquote; ", "; dquote; "Room 2"; dquote; ", etc."; newline;
    "        - The week includes only the following days: "; dayList; ".";
    newline; "        - There are "; pretty sessionsPerDay;
    " available time slots each day: "; timeSlotList; "."; newline; newline;
    "    3.  **Scheduling Rules:**"; newline;
    "        - Every single class implied by the counts above must be scheduled exactly once across all rooms.";
    newline;
    "        - In any single time slot (e.g., Room 1, Monday Slot 1), you cannot schedule more than ";
    pretty maxConcurrentClasses; " classes in total."; newline;
    "        - **Crucially, Grade 1 and Grade 2 classes must NEVER be scheduled in the same time slot together in the same room.**";
    newline;
    "        - **Similarly, Grade 3 and Grade 4 classes must NEVER be scheduled in the same time slot together in the same room.**";
    newline;
    "        - **VERY IMPORTANT ROOM ALLOCATION RULE: You must fill up the schedule for ";
    dquote; "Room 1"; dquote;
    " as much as possible before assigning any classes to "; dquote;
    "Room 2"; dquote; ". Then, fill "; dquote; "Room 2"; dquote; " before ";
    dquote; "Room 3"; dquote;
    ", and so on. Follow this sequential filling order strictly.**"; newline;
    "        - Distribute the classes as evenly as possible throughout the week to balance the school's activity, while respecting all other rules.";
    newline; newline;
    "    Please provide the generated timetable in the specified JSON format. The output should be a JSON object where the keys are the room names (e.g., ";
    dquote; "Room 1"; dquote; ", "; dquote; "Room 2"; dquote; ")."; newline;
    "  "
  ].

Definition generatePrompt
    (gradeCounts : GradeCounts) (maxConcurrentClasses sessionsPerDay : Z)
    (includedDays : list DayOfWeek) (numberOfRooms : Z) : string :=
  concat_strings
    (prompt_pieces gradeCounts maxConcurrentClasses sessionsPerDay
       includedDays numberOfRooms).

(* ===================================================================== *)
(** * The generation call and the check of its response *)
(* ===================================================================== *)

(** A value produced by [JSON.parse].  The payload of a number is not
    inspected by the program. *)
#[warnings="-register-all"]
Inductive JsValue : Type :=
  | JNull
  | JBool (b : bool)
  | JNumber (n : Z)
  | JString (s : string)
  | JArray (elements : list JsValue)
  | JObject (fields : gmap string JsValue).

(** [typeof v === 'object'] *)
Definition typeof_object (v : JsValue) : bool :=
  match v with
  | JNull | JArray _ | JObject _ => true
  | _ => false
  end.

(** [v !== null] *)
Definition not_null (v : JsValue) : bool :=
  match v with JNull => false | _ => true end.

(** [Object.keys(v).length]: the own enumerable string keys; the indices
    for an array or a string, none for a number or a boolean, and a
    [TypeError] ([None]) for [null]. *)
Definition Object_keys_length (v : JsValue) : option Z :=
  match v with
  | JNull => None
  | JBool _ | JNumber _ => Some 0
  | JString s => Some (Z.of_nat (String.length s))
  | JArray elements => Some (Z.of_nat (length elements))
  | JObject fields => Some (Z.of_nat (size fields))
  end.

(** The condition of the "basic validation" at line 112; [&&] evaluates
    its right operand only when the left one holds. *)
Definition hasExpectedStructure (parsedData : JsValue) (numberOfRooms : Z) : bool :=
  typeof_object parsedData
  && not_null parsedData
  && bool_decide (Object_keys_length parsedData = Some numberOfRooms).

(** What a [catch] clause receives: an [Error] with its message, or any
    other thrown value. *)
Inductive Thrown : Type :=
  | ThrownError (message : string)
  | ThrownOther.

(** What lines 98 to 109 come to: the awaited call, [response.text.trim()]
    or [JSON.parse] throws, or [parsedData] is obtained. *)
Inductive ApiOutcome : Type :=
  | ApiThrew (e : Thrown)
  | ApiParsed (parsedData : JsValue).

(** The external collaborator together with the parsing of its answer: it
    is handed the brief and the shape descriptor. *)
Definition Collaborator : Type := string → Schema → ApiOutcome.

Definition invalidFormatMessage : string :=
  "Invalid timetable format received from API. Expected a structure with rooms.".

(** [generateTimetable]: the promise is fulfilled with [parsedData]
    ([inr]) or rejected with a thrown value ([inl]). *)
Definition generateTimetable (ai : Collaborator)
    (gradeCounts : GradeCounts) (maxConcurrentClasses sessionsPerDay : Z)
    (includedDays : list DayOfWeek) (numberOfRooms : Z) : Thrown + JsValue :=
  let prompt :=
    generatePrompt gradeCounts maxConcurrentClasses sessionsPerDay
      includedDays numberOfRooms in
  let schema := generateResponseSchema sessionsPerDay includedDays numberOfRooms in
  let try_block : Thrown + JsValue :=
    match ai prompt schema with
    | ApiThrew e => inl e
    | ApiParsed parsedData =>
        if hasExpectedStructure parsedData numberOfRooms
        then inr parsedData
        else inl (ThrownError invalidFormatMessage)
    end in
  match try_block with
  | inr parsedData => inr parsedData
  | inl (ThrownError message) =>
      inl (ThrownError ("Failed to generate timetable: " +:+ message))
  | inl ThrownOther =>
      inl (ThrownError "An unknown error occurred while generating the timetable.")
  end.

(** The reading of a parsed value at the type [MultiRoomTimetable]: rooms,
    then days, then slots, then arrays of strings. *)
Definition asTimetableSlot (v : JsValue) : option (list string) :=
  match v with
  | JArray elements =>
      mapM (λ e, match e with JString c => Some c | _ => None end) elements
  | _ => None
  end.

Definition asTimetableDay (v : JsValue) : option (gmap string (list string)) :=
  match v with
  | JObject fields =>
      list_to_map <$>
        mapM (λ '(k, x), (λ y, (k, y)) <$> asTimetableSlot x) (map_to_list fields)
  | _ => None
  end.

Definition day_of_name (name : string) : option DayOfWeek :=
  snd <$> list_find (λ d, day_name d = name) DAYS_OF_WEEK.

Definition asTimetableData (v : JsValue)
    : option (gmap DayOfWeek (gmap string (list string))) :=
  match v with
  | JObject fields =>
      list_to_map <$>
        mapM (λ '(k, x), d ← day_of_name k; y ← asTimetableDay x; Some (d, y))
             (map_to_list fields)
  | _ => None
  end.

Definition asMultiRoomTimetable (v : JsValue) : option MultiRoomTimetable :=
  match v with
  | JObject fields =>
      list_to_map <$>
        mapM (λ '(k, x), (λ y, (k, y)) <$> asTimetableData x) (map_to_list fields)
  | _ => None
  end.

(** [handleGenerateClick], up to the [await]: the guard and the three
    state updates that precede the call. *)
Definition handleGenerateClick_begin (s : AppState) : AppState :=
  setTimetable None (setError None (setIsLoading true s)).

(** [handleGenerateClick], from the settlement of the promise on.  The
    cast [parsedData as MultiRoomTimetable] is unchecked in the source; the
    editor is modelled on values of the declared type, and a response
    outside it leaves the model without a timetable. *)
Definition handleGenerateClick_settle (result : Thrown + JsValue) (s : AppState)
    : AppState :=
  let s' :=
    match result with
    | inr parsedData => setTimetable (asMultiRoomTimetable parsedData) s
    | inl (ThrownError message) => setError (Some message) s
    | inl ThrownOther => setError (Some "An unexpected error occurred.") s
    end in
  setIsLoading false s'.

(** [handleGenerateClick] when nothing else happens while the call is
    outstanding. *)
Definition handleGenerateClick (ai : Collaborator) (s : AppState) : AppState :=
  if negb (canGenerate s) then s
  else
    handleGenerateClick_settle
      (generateTimetable ai (gradeCounts s) (maxConcurrentClasses s)
         (sessionsPerDay s) (includedDays s) (numberOfRooms s))
      (handleGenerateClick_begin s).

(* ===================================================================== *)
(** * The timetable editor: [handleMoveClass] *)
(* ===================================================================== *)

(** [t[r.room]?.[r.day]?.[r.slot]].  The keys of the dictionaries are
    their own properties; a name that a JavaScript object inherits (such as
    [constructor]) and does not hold itself is outside the model. *)
Definition lookup_slot (t : MultiRoomTimetable) (r : SlotRef) : option (list string) :=
  t !! room r ≫= λ roomTimetable,
  roomTimetable !! day r ≫= λ dayTimetable,
  dayTimetable !! slot r.

(** An in-place change of the array found at [t[r.room][r.day][r.slot]]. *)
Definition alter_slot (f : list string → list string) (r : SlotRef)
    (t : MultiRoomTimetable) : MultiRoomTimetable :=
  alter (alter (alter f (slot r)) (day r)) (room r) t.

(** [Array.prototype.findIndex(c => c === className)], [None] for -1. *)
Definition findIndex (className : string) (l : list string) : option nat :=
  fst <$> list_find (λ c, c = className) l.

(** [Array.prototype.sort()] on strings: code unit order. *)
Definition sort_strings (l : list string) : list string :=
  merge_sort String.le l.

(** [destinationGrades.includes(g)] *)
Definition includesGrade (g : Z) (destinationGrades : list (option Z)) : bool :=
  bool_decide (Some g ∈ destinationGrades).

(** The condition of the first grade test of [handleMoveClass]. *)
Definition grade12_conflict (movedGrade : option Z)
    (destinationGrades : list (option Z)) : bool :=
  (bool_decide (movedGrade = Some 1) && includesGrade 2 destinationGrades)
  || (bool_decide (movedGrade = Some 2) && includesGrade 1 destinationGrades).

(** The condition of the second grade test. *)
Definition grade34_conflict (movedGrade : option Z)
    (destinationGrades : list (option Z)) : bool :=
  (bool_decide (movedGrade = Some 3) && includesGrade 4 destinationGrades)
  || (bool_decide (movedGrade = Some 4) && includesGrade 3 destinationGrades).

Definition capacityMessage (className : string) (to : SlotRef)
    (maxConcurrentClasses : Z) : string :=
  concat_strings
    [ "Cannot move "; dquote; className; dquote; ". The "; dquote; slot to;
      dquote; " slot in "; room to; " on "; day_name (day to);
      " is full (max "; pretty maxConcurrentClasses; " classes)." ].

Definition grade12Message : string :=
  "Cannot move: Grade 1 and Grade 2 classes cannot be in the same slot.".

Definition grade34Message : string :=
  "Cannot move: Grade 3 and Grade 4 classes cannot be in the same slot.".

(** What the updater passed to [setTimetable] does on a timetable. *)
Inductive MoveOutcome : Type :=
  | Unchanged                          (* [return currentTimetable] *)
  | Rejected (message : string)        (* [setError(message); return currentTimetable] *)
  | Moved (newTimetable : MultiRoomTimetable). (* [setError(null); return newTimetable] *)

Definition moveUpdater (maxConcurrentClasses : Z) (className : string)
    (from to : SlotRef) (currentTimetable : MultiRoomTimetable) : MoveOutcome :=
  match lookup_slot currentTimetable to with
  | None => Unchanged
  | Some toSlotClasses =>
      if bool_decide (className ∈ toSlotClasses) then Unchanged
      else if bool_decide (Z.of_nat (length toSlotClasses) >= maxConcurrentClasses)
      then Rejected (capacityMessage className to maxConcurrentClasses)
      else
        let movedGrade := getGradeFromClassName className in
        let destinationGrades := getGradeFromClassName <$> toSlotClasses in
        if grade12_conflict movedGrade destinationGrades
        then Rejected grade12Message
        else if grade34_conflict movedGrade destinationGrades
        then Rejected grade34Message
        else
          (* [JSON.parse(JSON.stringify(currentTimetable))]: a copy, which
             the changes below are made on *)
          let newTimetable := currentTimetable in
          match lookup_slot newTimetable from with
          | None => Unchanged
          | Some fromSlotClasses =>
              match findIndex className fromSlotClasses with
              | None => Unchanged
              | Some classIndex =>
                  let newTimetable :=
                    alter_slot (delete classIndex) from newTimetable in
                  let newTimetable :=
                    alter_slot (λ l, l ++ [className]) to newTimetable in
                  let newTimetable :=
                    alter_slot sort_strings to newTimetable in
                  Moved newTimetable
              end
          end
  end.

(** [from.room === to.room && from.day === to.day && from.slot === to.slot] *)
Definition sameSlot (from to : SlotRef) : bool :=
  bool_decide (room from = room to)
  && bool_decide (day from = day to)
  && bool_decide (slot from = slot to).

Definition handleMoveClass (className : string) (from to : SlotRef)
    (s : AppState) : AppState :=
  if sameSlot from to then s
  else
    match timetable s with
    | None => s
    | Some currentTimetable =>
        match moveUpdater (maxConcurrentClasses s) className from to
                currentTimetable with
        | Unchanged => s
        | Rejected message => setError (Some message) s
        | Moved newTimetable => setTimetable (Some newTimetable) (setError None s)
        end
    end.

(** The validity [handleDragOver] computes for a drop of [className] on a
    slot holding [destinationSlot] (TimetableDisplay.tsx). *)
Definition isValidDrop (maxConcurrentClasses : Z) (className : string)
    (destinationSlot : list string) : bool :=
  let atCapacity :=
    bool_decide (Z.of_nat (length destinationSlot) >= maxConcurrentClasses) in
  let movedGrade := getGradeFromClassName className in
  let destinationGrades := getGradeFromClassName <$> destinationSlot in
  let hasGrade1 := includesGrade 1 destinationGrades in
  let hasGrade2 := includesGrade 2 destinationGrades in
  let hasGrade3 := includesGrade 3 destinationGrades in
  let hasGrade4 := includesGrade 4 destinationGrades in
  let coSchedulingConflict :=
    (bool_decide (movedGrade = Some 1) && hasGrade2)
    || (bool_decide (movedGrade = Some 2) && hasGrade1)
    || (bool_decide (movedGrade = Some 3) && hasGrade4)
    || (bool_decide (movedGrade = Some 4) && hasGrade3) in
  negb atCapacity && negb coSchedulingConflict.

(** ** Counting the classes of a timetable *)

(** The entries of a dictionary whose values hold entries: those of every
    value, one value after the other. *)
Definition map_entries {K} `{Countable K} {A B} (f : A → list B)
    (m : gmap K A) : list B :=
  map_to_list m ≫= λ kv, f kv.2.

(** All the class entries of a timetable, slot after slot. *)
Definition day_entries (dayTimetable : gmap string (list string)) : list string :=
  map_entries id dayTimetable.

Definition room_entries (roomTimetable : gmap DayOfWeek (gmap string (list string)))
    : list string :=
  map_entries day_entries roomTimetable.

Definition timetable_entries (t : MultiRoomTimetable) : list string :=
  map_entries room_entries t.

(** The total number of class entries. *)
Definition total_classes (t : MultiRoomTimetable) : nat :=
  length (timetable_entries t).

(** How many times a class name occurs in the whole timetable. *)
Definition occurrences (className : string) (t : MultiRoomTimetable) : nat :=
  length (filter (λ c, c = className) (timetable_entries t)).

(** Every class name occurs exactly once. *)
Definition unique_classes (t : MultiRoomTimetable) : Prop :=
  NoDup (timetable_entries t).

(** The two pairs of grades that may not share a slot. *)
Definition exclusive_pair (g g' : Z) : Prop :=
  (g = 1 ∧ g' = 2) ∨ (g = 2 ∧ g' = 1) ∨ (g = 3 ∧ g' = 4) ∨ (g = 4 ∧ g' = 3).

(** The message of a grade conflict for a moved class of grade [g]. *)
Definition gradeMessage (g : Z) : string :=
  if bool_decide (g = 1 ∨ g = 2) then grade12Message else grade34Message.

(** A move as the editor receives it: the class and its two slots. *)
Definition Move : Type := string * SlotRef * SlotRef.

Definition applyMoves (moves : list Move) (s : AppState) : AppState :=
  foldl (λ st '(className, from, to), handleMoveClass className from to st)
        s moves.

(** The message the application shows after a content-validation failure. *)
Definition contentFailureMessage : string :=
  "Failed to generate timetable: " +:+ invalidFormatMessage.

(* ===================================================================== *)
(** * Sample values *)
(* ===================================================================== *)

(** One room, Monday only, two slots, three classes. *)
Definition sampleTimetable : MultiRoomTimetable :=
  {[ "Room 1" :=
       {[ Monday :=
            {[ "Slot 1" := ["Grade 1 - A"; "Grade 3 - A"];
               "Slot 2" := ["Grade 2 - A"] ]} ]} ]}.

Definition sampleState : AppState :=
  {| gradeCounts := λ g, match g with G1 | G2 | G3 => 1 | _ => 0 end;
     maxConcurrentClasses := 3;
     sessionsPerDay := 2;
     numberOfRooms := 1;
     includedDays := [Monday];
     timetable := Some sampleTimetable;
     isLoading := false;
     error := None;
     draggedItem := None |}.

(** The same state when a slot may hold one class only. *)
Definition crowdedState : AppState :=
  {| gradeCounts := λ g, match g with G1 | G2 | G3 => 1 | _ => 0 end;
     maxConcurrentClasses := 1;
     sessionsPerDay := 2;
     numberOfRooms := 1;
     includedDays := [Monday];
     timetable := Some sampleTimetable;
     isLoading := false;
     error := None;
     draggedItem := None |}.

Definition slot1 : SlotRef := mkSlotRef "Room 1" Monday "Slot 1".
Definition slot2 : SlotRef := mkSlotRef "Room 1" Monday "Slot 2".

(** A collaborator that answers with an object without any room. *)
Definition emptyAnswer : Collaborator := λ _ _, ApiParsed (JObject ∅).

(* ===================================================================== *)
(** * The number input (components/GradeInput.tsx, [NumberInput]) *)
(* ===================================================================== *)

(** The white space [parseInt] skips, among the code units below 256. *)
Definition is_js_whitespace (c : Ascii.ascii) : bool :=
  bool_decide (Ascii.nat_of_ascii c ∈ [9; 10; 11; 12; 13; 32; 160]%nat).

Fixpoint trim_start (s : string) : string :=
  match s with
  | String c rest => if is_js_whitespace c then trim_start rest else s
  | EmptyString => s
  end.

(** The value of the longest prefix of decimal digits, [acc] being the value
    read so far ([None] when no digit was read). *)
Fixpoint parse_digits (acc : option Z) (s : string) : option Z :=
  match s with
  | String c rest =>
      if is_digit c
      then parse_digits (Some (10 * default 0 acc + digit_value c)) rest
      else acc
  | EmptyString => acc
  end.

(** [parseInt(text, 10)]; [None] is [NaN].  The integer is exact as long as
    it is below 2^53. *)
Definition parseInt10 (text : string) : option Z :=
  match trim_start text with
  | String c rest =>
      if bool_decide (c = Ascii.ascii_of_nat 45) then Z.opp <$> parse_digits None rest
      else if bool_decide (c = Ascii.ascii_of_nat 43) then parse_digits None rest
      else parse_digits None (String c rest)
  | EmptyString => None
  end.

(** [handleIncrement]: the value handed to [onValueChange], or the value
    kept when the callback is not called. *)
Definition handleIncrement (max value : Z) : Z :=
  if bool_decide (value < max) then value + 1 else value.

Definition handleDecrement (min value : Z) : Z :=
  if bool_decide (value > min) then value - 1 else value.

(** [handleInputChange]: the value handed to [onValueChange] for the text
    of the field. *)
Definition handleInputChange (min max : Z) (text : string) : Z :=
  let num := match parseInt10 text with Some n => n | None => min end in
  let num := if bool_decide (num < min) then min else num in
  let num := if bool_decide (num > max) then max else num in
  num.

(** What a user does with a number input. *)
Inductive InputAction : Type :=
  | ClickIncrement
  | ClickDecrement
  | TypeText (text : string).

Definition numberInput (min max : Z) (a : InputAction) (value : Z) : Z :=
  match a with
  | ClickIncrement => handleIncrement max value
  | ClickDecrement => handleDecrement min value
  | TypeText text => handleInputChange min max text
  end.

(* ===================================================================== *)
(** * The remaining handlers of [App] *)
(* ===================================================================== *)

Definition setGradeCounts (v : GradeCounts) (s : AppState) : AppState :=
  mkAppState v (maxConcurrentClasses s) (sessionsPerDay s)
    (numberOfRooms s) (includedDays s) (timetable s) (isLoading s) (error s)
    (draggedItem s).

Definition setMaxConcurrentClasses (v : Z) (s : AppState) : AppState :=
  mkAppState (gradeCounts s) v (sessionsPerDay s)
    (numberOfRooms s) (includedDays s) (timetable s) (isLoading s) (error s)
    (draggedItem s).

Definition setSessionsPerDay (v : Z) (s : AppState) : AppState :=
  mkAppState (gradeCounts s) (maxConcurrentClasses s) v
    (numberOfRooms s) (includedDays s) (timetable s) (isLoading s) (error s)
    (draggedItem s).

Definition setNumberOfRooms (v : Z) (s : AppState) : AppState :=
  mkAppState (gradeCounts s) (maxConcurrentClasses s) (sessionsPerDay s)
    v (includedDays s) (timetable s) (isLoading s) (error s) (draggedItem s).

Definition setDraggedItem (v : option DraggedItem) (s : AppState) : AppState :=
  mkAppState (gradeCounts s) (maxConcurrentClasses s) (sessionsPerDay s)
    (numberOfRooms s) (includedDays s) (timetable s) (isLoading s) (error s) v.

(** [setGradeCounts(prev => ({ ...prev, [grade]: count }))] *)
Definition handleGradeCountChange (grade : Grade) (count : Z) (s : AppState)
    : AppState :=
  setGradeCounts (λ g, if decide (g = grade) then count else gradeCounts s g) s.

Definition handleClassDragStart (className : string) (fromRoom : string)
    (fromDay : DayOfWeek) (fromSlot : string) (s : AppState) : AppState :=
  setDraggedItem
    (Some (mkDraggedItem className (mkSlotRef fromRoom fromDay fromSlot)))
    (setError None s).

Definition handleDragEnd (s : AppState) : AppState := setDraggedItem None s.

(** The four kinds of number input that [App] renders, with the bounds it
    gives them (the defaults of [NumberInput] are 0 and 20). *)
Inductive NumberField : Type :=
  | GradeField (grade : Grade)
  | MaxConcurrentField
  | SessionsField
  | RoomsField.

Definition field_min (f : NumberField) : Z :=
  match f with GradeField _ => 0 | _ => 1 end.

Definition field_max (f : NumberField) : Z :=
  match f with
  | GradeField _ | MaxConcurrentField => 20
  | SessionsField => 5
  | RoomsField => 10
  end.

Definition field_value (f : NumberField) (s : AppState) : Z :=
  match f with
  | GradeField grade => gradeCounts s grade
  | MaxConcurrentField => maxConcurrentClasses s
  | SessionsField => sessionsPerDay s
  | RoomsField => numberOfRooms s
  end.

Definition field_onValueChange (f : NumberField) (v : Z) (s : AppState)
    : AppState :=
  match f with
  | GradeField grade => handleGradeCountChange grade v s
  | MaxConcurrentField => setMaxConcurrentClasses v s
  | SessionsField => setSessionsPerDay v s
  | RoomsField => setNumberOfRooms v s
  end.

(** An action on one of the number inputs of the configuration panel. *)
Definition handleNumberInput (f : NumberField) (a : InputAction) (s : AppState)
    : AppState :=
  field_onValueChange f (numberInput (field_min f) (field_max f) a (field_value f s)) s.

(** The events of the application.  A generation request is taken together
    with the settlement of its call. *)
Inductive AppEvent : Type :=
  | NumberInputEvent (f : NumberField) (a : InputAction)
  | DayToggleEvent (day : DayOfWeek)
  | GenerateEvent (ai : Collaborator)
  | DragStartEvent (className fromRoom : string) (fromDay : DayOfWeek)
      (fromSlot : string)
  | DragEndEvent
  | MoveEvent (className : string) (from to : SlotRef).

Definition handleEvent (s : AppState) (e : AppEvent) : AppState :=
  match e with
  | NumberInputEvent f a => handleNumberInput f a s
  | DayToggleEvent day => handleDayToggle day s
  | GenerateEvent ai => handleGenerateClick ai s
  | DragStartEvent className fromRoom fromDay fromSlot =>
      handleClassDragStart className fromRoom fromDay fromSlot s
  | DragEndEvent => handleDragEnd s
  | MoveEvent className from to => handleMoveClass className from to s
  end.

(** The bounds the number inputs keep the four settings within. *)
Definition parameters_in_range (s : AppState) : Prop :=
  (∀ g, 0 ≤ gradeCounts s g ≤ 20)
  ∧ 1 ≤ maxConcurrentClasses s ≤ 20
  ∧ 1 ≤ sessionsPerDay s ≤ 5
  ∧ 1 ≤ numberOfRooms s ≤ 10.

(* ===================================================================== *)
(** * The grid of one room (components/TimetableDisplay.tsx) *)
(* ===================================================================== *)

Definition getGradeColor (grade : option Z) : string :=
  match grade with
  | Some 1 => "bg-blue-100 text-blue-800 dark:bg-blue-900 dark:text-blue-200 border-blue-300"
  | Some 2 => "bg-green-100 text-green-800 dark:bg-green-900 dark:text-green-200 border-green-300"
  | Some 3 => "bg-yellow-100 text-yellow-800 dark:bg-yellow-900 dark:text-yellow-200 border-yellow-300"
  | Some 4 => "bg-purple-100 text-purple-800 dark:bg-purple-900 dark:text-purple-200 border-purple-300"
  | Some 5 => "bg-pink-100 text-pink-800 dark:bg-pink-900 dark:text-pink-200 border-pink-300"
  | _ => "bg-slate-100 text-slate-800 dark:bg-slate-700 dark:text-slate-200 border-slate-300"
  end.

(** The state cell [dragOverInfo]. *)
Record DragOverInfo : Type := mkDragOverInfo {
  over_day : DayOfWeek;
  over_slot : string;
  over_isValid : bool
}.

(** [handleDragOver]: the next value of [dragOverInfo].  The component of
    room [roomName] is given the timetable of that room. *)
Definition handleDragOver (roomName : string)
    (roomTimetable : gmap DayOfWeek (gmap string (list string)))
    (maxConcurrentClasses : Z) (draggedItem : option DraggedItem)
    (day : DayOfWeek) (slot : string) (dragOverInfo : option DragOverInfo)
    : option DragOverInfo :=
  match draggedItem with
  | None => dragOverInfo
  | Some (mkDraggedItem className (mkSlotRef fromRoom fromDay fromSlot)) =>
      if bool_decide (fromRoom = roomName)
         && bool_decide (fromDay = day)
         && bool_decide (fromSlot = slot)
      then None
      else if match dragOverInfo with
              | Some info =>
                  bool_decide (over_day info = day)
                  && bool_decide (over_slot info = slot)
              | None => false
              end
      then dragOverInfo
      else
        match roomTimetable !! day ≫= λ dayTimetable, dayTimetable !! slot with
        | Some destinationSlot =>
            Some (mkDragOverInfo day slot
                    (isValidDrop maxConcurrentClasses className destinationSlot))
        | None => dragOverInfo
        end
  end.

(** [handleDrop]: the call of [onMoveClass], if any, and the next value of
    [dragOverInfo]. *)
Definition handleDrop (roomName : string) (draggedItem : option DraggedItem)
    (toDay : DayOfWeek) (toSlot : string) (dragOverInfo : option DragOverInfo)
    : option Move * option DragOverInfo :=
  let call :=
    match draggedItem, dragOverInfo with
    | Some item, Some info =>
        if over_isValid info
        then Some (dragged_className item, dragged_from item,
                   mkSlotRef roomName toDay toSlot)
        else None
    | _, _ => None
    end in
  (call, None).

Definition handleDragLeave (dragOverInfo : option DragOverInfo)
    : option DragOverInfo := None.

(** The application after a drop on a cell of the grid of [roomName]:
    [onMoveClass] is [handleMoveClass]. *)
Definition dropOnCell (roomName : string) (toDay : DayOfWeek) (toSlot : string)
    (dragOverInfo : option DragOverInfo) (s : AppState) : AppState :=
  match (handleDrop roomName (draggedItem s) toDay toSlot dragOverInfo).1 with
  | Some (className, from, to) => handleMoveClass className from to s
  | None => s
  end.

(* ===================================================================== *)
(** * Properties of a timetable that the editor is meant to keep *)
(* ===================================================================== *)

(** The occupant lists of all the slots of a timetable. *)
Definition timetable_slots (t : MultiRoomTimetable) : list (list string) :=
  map_entries (map_entries (map_entries (λ l : list string, [l]))) t.

(** No slot holds more classes than [maxConcurrentClasses]. *)
Definition slots_within (maxConcurrentClasses : Z) (t : MultiRoomTimetable) : Prop :=
  Forall (λ l, Z.of_nat (length l) ≤ maxConcurrentClasses) (timetable_slots t).

(** A slot holds no first-grade class with a second-grade one, and no
    third-grade class with a fourth-grade one. *)
Definition grades_apart (l : list string) : bool :=
  let grades := getGradeFromClassName <$> l in
  negb (includesGrade 1 grades && includesGrade 2 grades)
  && negb (includesGrade 3 grades && includesGrade 4 grades).

Definition grades_separated (t : MultiRoomTimetable) : Prop :=
  Forall (λ l, grades_apart l = true) (timetable_slots t).


(* ===================================================================== *)
(** * Theorems *)
(* ===================================================================== *)

Section StringFacts.

Lemma string_app_cons (a : Ascii.ascii) (s t : string) :
  String a s +:+ t = String a (s +:+ t).
Proof. reflexivity. Qed.

Lemma string_app_nil_l (t : string) : "" +:+ t = t.
Proof. reflexivity. Qed.

Lemma string_app_nil_r (s : string) : s +:+ "" = s.
Proof.
  induction s as [|a s IH]; [done|]. by rewrite string_app_cons, IH.
Qed.

Lemma string_app_assoc (s t u : string) : (s +:+ t) +:+ u = s +:+ t +:+ u.
Proof.
  induction s as [|a s IH]; [done|]. by rewrite !string_app_cons, IH.
Qed.

Lemma strip_prefix_Some (p s r : string) :
  strip_prefix p s = Some r ↔ s = p +:+ r.
Proof.
  revert s; induction p as [|a p IH]; intros s; simpl.
  - rewrite string_app_nil_l. split; [by intros [= ->] | by intros ->].
  - rewrite string_app_cons. destruct s as [|b s]; [split; by intros [=]|].
    case_decide as Hab.
    + subst b. rewrite IH. split; [by intros -> | by intros [= ->]].
    + split; [done | intros [= ? ?]; by subst].
Qed.

Lemma match_Grade_here_Some (s : string) (d : Ascii.ascii) :
  match_Grade_here s = Some d ↔ Grade_digit_at s 0 d.
Proof.
  unfold match_Grade_here, Grade_digit_at. split.
  - destruct (strip_prefix "Grade " s) as [[|c rest]|] eqn:E; try done.
    destruct (is_digit c) eqn:Hc; [|done]. intros [= ->].
    apply strip_prefix_Some in E. by exists "", rest.
  - intros (pre & post & -> & Hlen & Hd).
    destruct pre; [|done]. rewrite string_app_nil_l.
    assert (strip_prefix "Grade " ("Grade " +:+ String d post)
            = Some (String d post)) as -> by by apply strip_prefix_Some.
    by rewrite Hd.
Qed.

Lemma Grade_digit_at_tail (a : Ascii.ascii) (s : string) (i : nat) (d : Ascii.ascii) :
  Grade_digit_at (String a s) (S i) d ↔ Grade_digit_at s i d.
Proof.
  unfold Grade_digit_at. split.
  - intros (pre & post & E & Hlen & Hd). destruct pre as [|b pre]; [done|].
    rewrite string_app_cons in E. simpl in Hlen. injection E as -> E.
    exists pre, post. split_and!; auto with lia.
  - intros (pre & post & -> & Hlen & Hd). exists (String a pre), post.
    split_and!; simpl; auto with lia.
Qed.

Lemma Grade_digit_at_functional (s : string) (i : nat) (d d' : Ascii.ascii) :
  Grade_digit_at s i d → Grade_digit_at s i d' → d = d'.
Proof.
  revert s; induction i as [|i IH]; intros s H1 H2.
  - apply match_Grade_here_Some in H1, H2. congruence.
  - destruct s as [|a s].
    + destruct H1 as (pre & post & E & _). destruct pre; discriminate E.
    + apply Grade_digit_at_tail in H1, H2. eauto.
Qed.

(** The pattern search returns the capture of the leftmost match. *)
Lemma match_Grade_digit_Some (s : string) (d : Ascii.ascii) :
  match_Grade_digit s = Some d ↔
  ∃ i, Grade_digit_at s i d ∧ ∀ j d', Grade_digit_at s j d' → (i ≤ j)%nat.
Proof.
  revert d; induction s as [|a s IH]; intros d.
  - simpl. split; [done|]. intros (i & (pre & post & E & _) & _).
    destruct pre; discriminate E.
  - cbn [match_Grade_digit].
    destruct (match_Grade_here (String a s)) as [c|] eqn:Hhere.
    + apply match_Grade_here_Some in Hhere. split.
      * intros [= ->]. exists 0%nat. split; [done | intros; lia].
      * intros (i & Hi & Hmin). specialize (Hmin _ _ Hhere).
        assert (i = 0%nat) as -> by lia.
        apply match_Grade_here_Some in Hhere, Hi. congruence.
    + rewrite IH. split.
      * intros (i & Hi & Hmin). exists (S i). split.
        { by apply Grade_digit_at_tail. }
        intros [|j] d' Hj.
        { apply match_Grade_here_Some in Hj. congruence. }
        apply Grade_digit_at_tail in Hj. specialize (Hmin _ _ Hj). lia.
      * intros ([|i] & Hi & Hmin).
        { apply match_Grade_here_Some in Hi. congruence. }
        exists i. split; [by apply (Grade_digit_at_tail a s i d)|].
        intros j d' Hj. apply (Grade_digit_at_tail a) in Hj.
        specialize (Hmin _ _ Hj). lia.
Qed.

Lemma match_Grade_digit_None (s : string) :
  match_Grade_digit s = None ↔ ¬ ∃ i d, Grade_digit_at s i d.
Proof.
  induction s as [|a s IH].
  - simpl. split; [|done]. intros _ (i & d & pre & post & E & _).
    destruct pre; discriminate E.
  - cbn [match_Grade_digit].
    destruct (match_Grade_here (String a s)) as [c|] eqn:Hhere.
    + apply match_Grade_here_Some in Hhere. split; [done|].
      intros H. destruct H. eauto.
    + rewrite IH. split.
      * intros Hno (i & d & Hi). destruct i as [|i].
        { apply match_Grade_here_Some in Hi. congruence. }
        apply Grade_digit_at_tail in Hi. apply Hno. eauto.
      * intros Hno (i & d & Hi). apply Hno. exists (S i), d.
        by apply Grade_digit_at_tail.
Qed.

End StringFacts.

(** C10 (as amended).  The pattern is not anchored: for every class name,
    [getGradeFromClassName] returns the value of the digit that follows the
    leftmost occurrence of the six characters [Grade ] that is immediately
    followed by a digit, wherever it is in the name, and it returns no grade
    exactly when the name has no occurrence of [Grade ] followed by a digit.
    In particular the name [Grade 12 - A] gives 1 and [Extra Grade 3 prep]
    gives 3. *)
Theorem getGradeFromClassName_leftmost_match :
  ∀ className : string,
    (∀ g : Z,
        getGradeFromClassName className = Some g ↔
        ∃ i d, Grade_digit_at className i d ∧ g = digit_value d
               ∧ ∀ j d', Grade_digit_at className j d' → (i ≤ j)%nat)
    ∧ (getGradeFromClassName className = None ↔
       ¬ ∃ i d, Grade_digit_at className i d)
    ∧ getGradeFromClassName "Grade 12 - A" = Some 1
    ∧ getGradeFromClassName "Extra Grade 3 prep" = Some 3.
Proof.
  intros className. unfold getGradeFromClassName. split_and!; try reflexivity.
  - intros g. destruct (match_Grade_digit className) as [d|] eqn:E.
    + apply match_Grade_digit_Some in E as (i & Hi & Hmin). split.
      * intros [= <-]. eauto 6.
      * intros (i' & d' & Hi' & -> & Hmin').
        pose proof (Hmin _ _ Hi'). pose proof (Hmin' _ _ Hi).
        assert (i' = i) as -> by lia.
        do 2 f_equal. eapply Grade_digit_at_functional; eauto.
    + split; [done|]. intros (i & d & Hi & _).
      apply match_Grade_digit_None in E. destruct E. eauto.
  - destruct (match_Grade_digit className) as [d|] eqn:E.
    + split; [done|]. intros Hno. destruct Hno.
      apply match_Grade_digit_Some in E as (i & Hi & _). eauto.
    + by apply match_Grade_digit_None in E.
Qed.

(** C10 (as stated) fails: in [Grade X Grade 3] the first occurrence of
    [Grade ] is at the start and is followed by [X], so no digit follows it,
    yet the grade extracted is 3, taken from the second occurrence. *)
Lemma getGradeFromClassName_not_first_occurrence :
  after_first_occurrence "Grade " "Grade X Grade 3" = Some "X Grade 3"
  ∧ digit_after_first_Grade "Grade X Grade 3" = None
  ∧ getGradeFromClassName "Grade X Grade 3" = Some 3
  ∧ ¬ (∀ className : string,
         getGradeFromClassName className = digit_after_first_Grade className).
Proof.
  split_and!; try reflexivity.
  intros H. specialize (H "Grade X Grade 3"). vm_compute in H. discriminate H.
Qed.

(* ===================================================================== *)
(** ** Day toggles *)
(* ===================================================================== *)

Section DayToggle.

Lemma indexOf_DAYS_OF_WEEK (d : DayOfWeek) :
  indexOf DAYS_OF_WEEK d = Z.of_nat (day_code d).
Proof. by destruct d. Qed.

Lemma compareDays_le (a b : DayOfWeek) :
  cmp_le compareDays a b ↔ (day_code a ≤ day_code b)%nat.
Proof.
  unfold cmp_le, compareDays. rewrite !indexOf_DAYS_OF_WEEK. lia.
Qed.

Lemma day_code_inj (a b : DayOfWeek) : day_code a = day_code b → a = b.
Proof. by destruct a, b. Qed.

#[local] Instance compareDays_trans : Transitive (cmp_le compareDays).
Proof. intros a b c. rewrite !compareDays_le. lia. Qed.

#[local] Instance compareDays_total : Total (cmp_le compareDays).
Proof. intros a b. rewrite !compareDays_le. lia. Qed.

#[local] Instance compareDays_antisymm : AntiSymm (=) (cmp_le compareDays).
Proof.
  intros a b. rewrite !compareDays_le. intros. apply day_code_inj. lia.
Qed.

Lemma all_days (d : DayOfWeek) : d ∈ DAYS_OF_WEEK.
Proof. apply (bool_decide_unpack _). by destruct d. Qed.

Lemma DAYS_OF_WEEK_NoDup : NoDup DAYS_OF_WEEK.
Proof. apply (bool_decide_unpack _). by vm_compute. Qed.

Lemma StronglySorted_sublist {A} (R : relation A) (l k : list A) :
  sublist l k → StronglySorted R k → StronglySorted R l.
Proof.
  induction 1 as [|x l k Hlk IH|x l k Hlk IH]; intros Hk.
  - constructor.
  - apply StronglySorted_inv in Hk as [Hk Hx]. constructor; [by apply IH|].
    rewrite Forall_forall in Hx |- *. intros y Hy. apply Hx.
    by eapply sublist_subseteq.
  - apply StronglySorted_inv in Hk as [Hk _]. by apply IH.
Qed.

Lemma DAYS_OF_WEEK_sorted : StronglySorted (cmp_le compareDays) DAYS_OF_WEEK.
Proof.
  unfold DAYS_OF_WEEK.
  repeat (constructor; [|repeat constructor; by apply compareDays_le; simpl; lia]).
  constructor.
Qed.

Lemma DAYS_OF_WEEK_increasing :
  StronglySorted (λ a b, indexOf DAYS_OF_WEEK a < indexOf DAYS_OF_WEEK b)
    DAYS_OF_WEEK.
Proof.
  unfold DAYS_OF_WEEK.
  repeat (constructor; [|repeat constructor; by rewrite !indexOf_DAYS_OF_WEEK]).
  constructor.
Qed.

(** Sorting a duplicate-free list of days keeps exactly the days of the
    week that are in it, in the order of the week. *)
Lemma sort_by_compareDays (l : list DayOfWeek) :
  NoDup l → sort_by compareDays l = filter (λ d, d ∈ l) DAYS_OF_WEEK.
Proof.
  intros Hnd. unfold sort_by.
  apply (Sorted_unique (cmp_le compareDays)).
  - apply Sorted_merge_sort, _.
  - apply StronglySorted_Sorted.
    eapply StronglySorted_sublist; [apply sublist_filter | apply DAYS_OF_WEEK_sorted].
  - rewrite merge_sort_Permutation. apply NoDup_Permutation; [done | |].
    + apply NoDup_filter, DAYS_OF_WEEK_NoDup.
    + intros d. rewrite list_elem_of_filter. pose proof (all_days d). tauto.
Qed.

Lemma toggleDay_sublist (day : DayOfWeek) (prev : list DayOfWeek) :
  NoDup prev → sublist (toggleDay day prev) DAYS_OF_WEEK.
Proof.
  intros Hnd. unfold toggleDay. rewrite sort_by_compareDays.
  - apply sublist_filter.
  - case_bool_decide as Hin.
    + by apply NoDup_filter.
    + apply NoDup_app. split_and!; [done | | apply NoDup_singleton].
      intros d Hd ->%list_elem_of_singleton. done.
Qed.

Lemma toggles_sublist (toggles : list DayOfWeek) (s : AppState) :
  sublist (includedDays s) DAYS_OF_WEEK →
  sublist (includedDays (foldl (λ st d, handleDayToggle d st) s toggles))
    DAYS_OF_WEEK.
Proof.
  revert s; induction toggles as [|d toggles IH]; intros s Hs; [done|].
  simpl. apply IH. simpl. apply toggleDay_sublist.
  exact (sublist_NoDup _ _ DAYS_OF_WEEK_NoDup Hs).
Qed.

End DayToggle.

(** C8.  After every sequence of day toggles from the initial state, the
    list of active days has no duplicate, holds only days of Monday to
    Friday, and lists them in calendar order: it is a subsequence of
    [Monday; Tuesday; Wednesday; Thursday; Friday], with strictly
    increasing positions in the week, whatever the order of the toggles. *)
Theorem handleDayToggle_calendar_order :
  ∀ toggles : list DayOfWeek,
    let days :=
      includedDays (foldl (λ st d, handleDayToggle d st) initialState toggles) in
    NoDup days
    ∧ days ⊆ DAYS_OF_WEEK
    ∧ sublist days DAYS_OF_WEEK
    ∧ StronglySorted
        (λ a b, indexOf DAYS_OF_WEEK a < indexOf DAYS_OF_WEEK b) days.
Proof.
  intros toggles days.
  assert (sublist days DAYS_OF_WEEK) as Hsub.
  { apply toggles_sublist. simpl. reflexivity. }
  split_and!.
  - exact (sublist_NoDup _ _ DAYS_OF_WEEK_NoDup Hsub).
  - by apply sublist_subseteq.
  - done.
  - apply (StronglySorted_sublist _ _ _ Hsub), DAYS_OF_WEEK_increasing.
Qed.

(* ===================================================================== *)
(** ** The generation guard *)
(* ===================================================================== *)

(** C9.  The total is the sum of the five grade counts and the capacity is
    the product of the four settings; generation is permitted only when the
    total is positive, a day is active and the total is within capacity
    (and no request is outstanding).  When one of the three conditions
    fails, the trigger is disabled and a click changes nothing. *)
Theorem canGenerate_conditions :
  ∀ s : AppState,
    totalClasses s
      = gradeCounts s G1 + gradeCounts s G2 + gradeCounts s G3
        + gradeCounts s G4 + gradeCounts s G5
    ∧ maxPossibleClasses s
      = maxConcurrentClasses s * Z.of_nat (length (includedDays s))
        * sessionsPerDay s * numberOfRooms s
    ∧ (canGenerate s = true ↔
       totalClasses s > 0 ∧ includedDays s ≠ []
       ∧ totalClasses s ≤ maxPossibleClasses s ∧ isLoading s = false)
    ∧ (¬ (totalClasses s > 0 ∧ includedDays s ≠ []
          ∧ totalClasses s ≤ maxPossibleClasses s) →
       canGenerate s = false
       ∧ generateButton_disabled s = true
       ∧ ∀ ai : Collaborator, handleGenerateClick ai s = s).
Proof.
  intros s.
  assert (canGenerate s = true ↔
          totalClasses s > 0 ∧ includedDays s ≠ []
          ∧ totalClasses s ≤ maxPossibleClasses s ∧ isLoading s = false) as Hiff.
  { unfold canGenerate. rewrite !andb_true_iff, !bool_decide_eq_true, negb_true_iff.
    destruct (includedDays s); simpl; split; intros; destruct_and?;
      split_and?; auto; try lia; done. }
  split_and!; [unfold totalClasses; simpl; lia | done | done |].
  intros Hnot.
  assert (canGenerate s = false) as Hfalse.
  { destruct (canGenerate s); [|done]. destruct Hnot.
    destruct Hiff as [Hiff _]. specialize (Hiff eq_refl). tauto. }
  split_and!; [done | by unfold generateButton_disabled; rewrite Hfalse |].
  intros ai. unfold handleGenerateClick. by rewrite Hfalse.
Qed.

(* ===================================================================== *)
(** ** The response check *)
(* ===================================================================== *)

(** C6.  Whatever the collaborator's parsed response and whatever the room
    count, a response whose top-level key count is not the room count
    fails the check: the call ends with the invalid-format error, and no
    timetable is returned. *)
Theorem generateTimetable_rejects_wrong_key_count :
  ∀ (ai : Collaborator) (gradeCounts : GradeCounts)
    (maxConcurrentClasses sessionsPerDay : Z) (includedDays : list DayOfWeek)
    (numberOfRooms : Z) (parsedData : JsValue),
    ai (generatePrompt gradeCounts maxConcurrentClasses sessionsPerDay
          includedDays numberOfRooms)
       (generateResponseSchema sessionsPerDay includedDays numberOfRooms)
      = ApiParsed parsedData →
    Object_keys_length parsedData ≠ Some numberOfRooms →
    hasExpectedStructure parsedData numberOfRooms = false
    ∧ generateTimetable ai gradeCounts maxConcurrentClasses sessionsPerDay
        includedDays numberOfRooms
      = inl (ThrownError contentFailureMessage).
Proof.
  intros ai gc maxC sessions days rooms parsedData Hai Hkeys.
  assert (hasExpectedStructure parsedData rooms = false) as Hcheck.
  { unfold hasExpectedStructure. rewrite (bool_decide_eq_false_2 _ Hkeys).
    by rewrite andb_false_r. }
  split; [done|]. unfold generateTimetable. by rewrite Hai, Hcheck.
Qed.

(** A response with no room at all, for one configured room. *)
Lemma generateTimetable_rejects_wrong_key_count_witness :
  hasExpectedStructure (JObject ∅) 1 = false
  ∧ generateTimetable (λ _ _, ApiParsed (JObject ∅)) (λ _, 1) 3 2 [Monday] 1
    = inl (ThrownError contentFailureMessage).
Proof.
  apply (generateTimetable_rejects_wrong_key_count
           (λ _ _, ApiParsed (JObject ∅)) (λ _, 1) 3 2 [Monday] 1 (JObject ∅)).
  - reflexivity.
  - vm_compute. discriminate.
Defined.

(* ===================================================================== *)
(** ** A generation request that fails the content check *)
(* ===================================================================== *)

Section Generation.

Lemma handleMoveClass_no_timetable (className : string) (from to : SlotRef)
    (s : AppState) :
  timetable s = None → handleMoveClass className from to s = s.
Proof.
  intros Hnone. unfold handleMoveClass. rewrite Hnone. by destruct (sameSlot _ _).
Qed.

Lemma applyMoves_no_timetable (moves : list Move) (s : AppState) :
  timetable s = None → applyMoves moves s = s.
Proof.
  revert s; induction moves as [|[[c from] to] moves IH]; intros s Hs; [done|].
  unfold applyMoves in *. simpl. rewrite handleMoveClass_no_timetable by done.
  by apply IH.
Qed.

Lemma failure_message_inj (message : string) :
  "Failed to generate timetable: " +:+ message = contentFailureMessage →
  message = invalidFormatMessage.
Proof. unfold contentFailureMessage. by intros ?%(inj _). Qed.

End Generation.

(** C2 (as amended).  When a generation request ends in a content-validation
    failure, the application shows the message
    [Failed to generate timetable: Invalid timetable format received from
    API. Expected a structure with rooms.], is no longer loading, and holds
    no timetable: the timetable was cleared when the request was issued and
    is not restored, and the moves attempted meanwhile leave it cleared.  A
    failed call shows the same message only if what it threw is an error
    carrying the invalid-format text itself. *)
Theorem handleGenerateClick_content_failure :
  ∀ (ai : Collaborator) (s : AppState) (parsedData : JsValue),
    canGenerate s = true →
    ai (generatePrompt (gradeCounts s) (maxConcurrentClasses s)
          (sessionsPerDay s) (includedDays s) (numberOfRooms s))
       (generateResponseSchema (sessionsPerDay s) (includedDays s)
          (numberOfRooms s))
      = ApiParsed parsedData →
    hasExpectedStructure parsedData (numberOfRooms s) = false →
    let outcome :=
      generateTimetable ai (gradeCounts s) (maxConcurrentClasses s)
        (sessionsPerDay s) (includedDays s) (numberOfRooms s) in
    handleGenerateClick ai s
      = setIsLoading false (setError (Some contentFailureMessage)
          (setTimetable None s))
    ∧ error (handleGenerateClick ai s) = Some contentFailureMessage
    ∧ timetable (handleGenerateClick ai s) = None
    ∧ isLoading (handleGenerateClick ai s) = false
    ∧ (∀ moves : list Move,
         handleGenerateClick_settle outcome
           (applyMoves moves (handleGenerateClick_begin s))
         = handleGenerateClick ai s)
    ∧ (∀ (ai' : Collaborator) (e : Thrown),
         ai' (generatePrompt (gradeCounts s) (maxConcurrentClasses s)
                (sessionsPerDay s) (includedDays s) (numberOfRooms s))
             (generateResponseSchema (sessionsPerDay s) (includedDays s)
                (numberOfRooms s))
           = ApiThrew e →
         error (handleGenerateClick ai' s) = Some contentFailureMessage →
         e = ThrownError invalidFormatMessage).
Proof.
  intros ai s parsedData Hcan Hai Hcheck outcome.
  assert (outcome = inl (ThrownError contentFailureMessage)) as Hout.
  { unfold outcome, generateTimetable. by rewrite Hai, Hcheck. }
  assert (handleGenerateClick ai s
          = setIsLoading false (setError (Some contentFailureMessage)
              (setTimetable None s))) as Heq.
  { unfold handleGenerateClick. rewrite Hcan. simpl. fold outcome.
    rewrite Hout. by destruct s. }
  split_and!; try (rewrite Heq; done).
  - intros moves. rewrite applyMoves_no_timetable by done.
    unfold handleGenerateClick. rewrite Hcan. done.
  - intros ai' e Hai'. unfold handleGenerateClick, generateTimetable.
    rewrite Hcan, Hai'. simpl. destruct e as [message|]; simpl.
    + intros Hmsg%(inj Some). by apply failure_message_inj in Hmsg as ->.
    + intros Hmsg. vm_compute in Hmsg. discriminate Hmsg.
Qed.

(** An answer without rooms, for a request made while a timetable is shown. *)
Lemma handleGenerateClick_content_failure_witness :
  error (handleGenerateClick emptyAnswer sampleState) = Some contentFailureMessage
  ∧ timetable (handleGenerateClick emptyAnswer sampleState) = None.
Proof.
  destruct (handleGenerateClick_content_failure emptyAnswer sampleState (JObject ∅))
    as (_ & Herror & Htimetable & _).
  - reflexivity.
  - reflexivity.
  - reflexivity.
  - split; [exact Herror | exact Htimetable].
Defined.

(** C2 (as stated) fails: the request of [sampleState] is permitted and ends
    in a content-validation failure, and the timetable shown before it is
    gone afterwards. *)
Lemma handleGenerateClick_timetable_not_kept :
  canGenerate sampleState = true
  ∧ hasExpectedStructure (JObject ∅) (numberOfRooms sampleState) = false
  ∧ error (handleGenerateClick emptyAnswer sampleState) = Some contentFailureMessage
  ∧ timetable sampleState = Some sampleTimetable
  ∧ timetable (handleGenerateClick emptyAnswer sampleState) = None
  ∧ timetable (handleGenerateClick emptyAnswer sampleState) ≠ timetable sampleState.
Proof. split_and!; try reflexivity. vm_compute. discriminate. Qed.

(* ===================================================================== *)
(** ** The move validator *)
(* ===================================================================== *)

Section Validator.

Lemma sameSlot_true (from to : SlotRef) : sameSlot from to = true ↔ from = to.
Proof.
  unfold sameSlot. rewrite !andb_true_iff, !bool_decide_eq_true.
  destruct from, to; simpl. split; [by intros [[-> ->] ->] | by intros [= -> -> ->]].
Qed.

Lemma sameSlot_false (from to : SlotRef) : from ≠ to → sameSlot from to = false.
Proof.
  intros Hne. destruct (sameSlot from to) eqn:E; [|done].
  by apply sameSlot_true in E.
Qed.

Lemma concat_strings_app (l k : list string) :
  concat_strings (l ++ k) = concat_strings l +:+ concat_strings k.
Proof.
  induction l as [|x l IH]; [done|]. simpl. fold (concat_strings (l ++ k)).
  fold (concat_strings l). by rewrite IH, string_app_assoc.
Qed.

Lemma is_substring_concat (p : string) (pieces : list string) :
  p ∈ pieces → is_substring p (concat_strings pieces).
Proof.
  intros (l & k & ->)%list_elem_of_split.
  exists (concat_strings l), (concat_strings k). by rewrite concat_strings_app.
Qed.

Lemma is_substring_trans (p q s : string) :
  is_substring p q → is_substring q s → is_substring p s.
Proof.
  intros (a & b & ->) (c & d & ->). exists (c +:+ a), (b +:+ d).
  by rewrite !string_app_assoc.
Qed.

Lemma includesGrade_occupant (g : Z) (occupant : string) (l : list string) :
  occupant ∈ l → getGradeFromClassName occupant = Some g →
  includesGrade g (getGradeFromClassName <$> l) = true.
Proof.
  intros Hin Hg. apply bool_decide_eq_true. rewrite <-Hg.
  by apply list_elem_of_fmap_2.
Qed.

(** With an occupant of the excluded grade in the slot, the test of the
    pair the moved grade belongs to fires. *)
Lemma exclusive_pair_conflict (g g' : Z) (grades : list (option Z)) :
  exclusive_pair g g' → includesGrade g' grades = true →
  (if bool_decide (g = 1 ∨ g = 2)
   then grade12_conflict (Some g) grades = true
   else grade12_conflict (Some g) grades = false
        ∧ grade34_conflict (Some g) grades = true).
Proof.
  unfold grade12_conflict, grade34_conflict.
  intros [[-> ->]|[[-> ->]|[[-> ->]|[-> ->]]]] ->; simpl; done.
Qed.

Lemma gradeless_no_conflict (grades : list (option Z)) :
  grade12_conflict None grades = false ∧ grade34_conflict None grades = false.
Proof. done. Qed.

Lemma includesGrade_filter (g : Z) (l : list string) :
  includesGrade g (getGradeFromClassName <$> l)
  = includesGrade g
      (getGradeFromClassName <$> filter (λ c, is_Some (getGradeFromClassName c)) l).
Proof.
  unfold includesGrade. apply bool_decide_ext.
  rewrite !list_elem_of_fmap. split.
  - intros (c & Hc & Hin). exists c. split; [done|].
    apply list_elem_of_filter. split; [|done]. rewrite <-Hc. by eexists.
  - intros (c & Hc & Hin%list_elem_of_filter). exists c. tauto.
Qed.

End Validator.

(** C5.  A move whose source and destination are the same room, day and
    slot changes nothing: the whole state after it, timetable included, is
    the state before it. *)
Theorem handleMoveClass_same_slot :
  ∀ (s : AppState) (className : string) (r : SlotRef),
    handleMoveClass className r r s = s
    ∧ timetable (handleMoveClass className r r s) = timetable s.
Proof.
  intros s className r.
  assert (handleMoveClass className r r s = s) as ->; [|done].
  unfold handleMoveClass.
  by rewrite (proj2 (sameSlot_true r r) eq_refl).
Qed.

(** C3.  A move between two different slots into an existing slot that
    does not hold the class and whose occupant list is at least as long as
    the configured maximum is rejected: the timetable is the same, and the
    error shown is the capacity message, which names the slot, the room and
    the day of the destination. *)
Theorem handleMoveClass_capacity :
  ∀ (s : AppState) (t : MultiRoomTimetable) (className : string)
    (from to : SlotRef) (toSlotClasses : list string),
    timetable s = Some t →
    from ≠ to →
    lookup_slot t to = Some toSlotClasses →
    className ∉ toSlotClasses →
    Z.of_nat (length toSlotClasses) >= maxConcurrentClasses s →
    let message := capacityMessage className to (maxConcurrentClasses s) in
    moveUpdater (maxConcurrentClasses s) className from to t = Rejected message
    ∧ handleMoveClass className from to s = setError (Some message) s
    ∧ timetable (handleMoveClass className from to s) = Some t
    ∧ is_substring (slot to) message
    ∧ is_substring (room to) message
    ∧ is_substring (day_name (day to)) message.
Proof.
  intros s t className from to toSlotClasses Ht Hne Hto Hnotin Hfull message.
  assert (moveUpdater (maxConcurrentClasses s) className from to t
          = Rejected message) as Hupd.
  { unfold moveUpdater. rewrite Hto.
    rewrite (bool_decide_eq_false_2 _ Hnotin).
    by rewrite (bool_decide_eq_true_2 _ Hfull). }
  assert (handleMoveClass className from to s = setError (Some message) s) as Hmove.
  { unfold handleMoveClass. by rewrite (sameSlot_false _ _ Hne), Ht, Hupd. }
  split_and!; [done | done | by rewrite Hmove | ..];
    apply is_substring_concat; set_solver.
Qed.

(** The second slot of the sample is full when one class is the maximum. *)
Lemma handleMoveClass_capacity_witness :
  handleMoveClass "Grade 3 - A" slot1 slot2 crowdedState
  = setError (Some (capacityMessage "Grade 3 - A" slot2 1)) crowdedState.
Proof.
  destruct (handleMoveClass_capacity crowdedState sampleTimetable
              "Grade 3 - A" slot1 slot2 ["Grade 2 - A"])
    as (_ & Hmove & _).
  - reflexivity.
  - discriminate.
  - reflexivity.
  - apply (bool_decide_unpack _). vm_compute. exact I.
  - simpl. lia.
  - exact Hmove.
Defined.

(** C4.  In every timetable, a move of a class into a slot that holds an
    occupant of the grade excluded with its own (1 with 2, 2 with 1, 3 with
    4, 4 with 3) is never applied: the timetable stays the same, the
    drag-over check reports an invalid drop, and when the move gets as far
    as the grade tests (different slots, class not yet in the destination,
    room left) the error shown is the message of that pair.  A class name
    without a grade never fires either test, occupants without a grade do
    not count in them, and such a class is moved whenever the other checks
    pass. *)
Theorem handleMoveClass_grade_exclusion :
  ∀ (s : AppState) (t : MultiRoomTimetable) (className : string)
    (from to : SlotRef) (toSlotClasses : list string),
    timetable s = Some t →
    lookup_slot t to = Some toSlotClasses →
    let maxC := maxConcurrentClasses s in
    let movedGrade := getGradeFromClassName className in
    let destinationGrades := getGradeFromClassName <$> toSlotClasses in
    (∀ (occupant : string) (g g' : Z),
        occupant ∈ toSlotClasses →
        movedGrade = Some g →
        getGradeFromClassName occupant = Some g' →
        exclusive_pair g g' →
        (∀ t', moveUpdater maxC className from to t ≠ Moved t')
        ∧ timetable (handleMoveClass className from to s) = Some t
        ∧ isValidDrop maxC className toSlotClasses = false
        ∧ (from ≠ to → className ∉ toSlotClasses →
           Z.of_nat (length toSlotClasses) < maxC →
           handleMoveClass className from to s
           = setError (Some (gradeMessage g)) s))
    ∧ (movedGrade = None →
       grade12_conflict movedGrade destinationGrades = false
       ∧ grade34_conflict movedGrade destinationGrades = false
       ∧ (className ∉ toSlotClasses →
          Z.of_nat (length toSlotClasses) < maxC →
          ∀ fromSlotClasses,
            lookup_slot t from = Some fromSlotClasses →
            className ∈ fromSlotClasses →
            ∃ t', moveUpdater maxC className from to t = Moved t'))
    ∧ (∀ mg : option Z,
         let graded := filter (λ c, is_Some (getGradeFromClassName c)) toSlotClasses in
         grade12_conflict mg destinationGrades
         = grade12_conflict mg (getGradeFromClassName <$> graded)
         ∧ grade34_conflict mg destinationGrades
           = grade34_conflict mg (getGradeFromClassName <$> graded)).
Proof.
  intros s t className from to toSlotClasses Ht Hto maxC movedGrade destinationGrades.
  split_and!.
  - intros occupant g g' Hocc Hg Hg' Hpair.
    pose proof (includesGrade_occupant _ _ _ Hocc Hg') as Hincl.
    pose proof (exclusive_pair_conflict _ _ _ Hpair Hincl) as Hconf.
    fold destinationGrades in Hincl, Hconf.
    assert (∀ t', moveUpdater maxC className from to t ≠ Moved t') as Hupd.
    { intros t'. unfold moveUpdater. rewrite Hto.
      fold movedGrade destinationGrades. rewrite Hg.
      destruct (bool_decide (g = 1 ∨ g = 2));
        [rewrite Hconf | destruct Hconf as [-> ->]];
        repeat case_bool_decide; done. }
    split_and!; [done | | |].
    + unfold handleMoveClass. destruct (sameSlot from to); [done|].
      rewrite Ht.
      destruct (moveUpdater (maxConcurrentClasses s) className from to t)
        as [|message|t'] eqn:E; [done | done | by destruct (Hupd t')].
    + unfold isValidDrop. fold movedGrade destinationGrades. rewrite Hg.
      apply andb_false_iff. right. apply negb_false_iff.
      destruct Hpair as [[-> ->]|[[-> ->]|[[-> ->]|[-> ->]]]];
        rewrite Hincl; simpl; by rewrite ?orb_true_r.
    + intros Hne Hnotin Hroom. unfold handleMoveClass.
      rewrite (sameSlot_false _ _ Hne), Ht. unfold moveUpdater. rewrite Hto.
      fold movedGrade destinationGrades. rewrite Hg.
      rewrite (bool_decide_eq_false_2 _ Hnotin).
      rewrite bool_decide_eq_false_2 by (fold maxC; lia).
      unfold gradeMessage. case_bool_decide.
      * by rewrite Hconf.
      * destruct Hconf as [-> ->]. done.
  - intros Hnone. rewrite Hnone.
    destruct (gradeless_no_conflict destinationGrades) as [Hno12 Hno34].
    split_and!; [exact Hno12 | exact Hno34 |].
    intros Hnotin Hroom fromSlotClasses Hfrom Hin.
    unfold moveUpdater. rewrite Hto. fold movedGrade destinationGrades.
    rewrite Hnone, Hfrom. rewrite (bool_decide_eq_false_2 _ Hnotin).
    rewrite bool_decide_eq_false_2 by lia. simpl.
    unfold findIndex.
    destruct (list_find (λ c, c = className) fromSlotClasses) as [[i c]|] eqn:E.
    + simpl. by eexists.
    + apply list_find_None in E. rewrite Forall_forall in E.
      by destruct (E className Hin).
  - intros mg graded. unfold grade12_conflict, grade34_conflict.
    unfold destinationGrades, graded. by rewrite <-!includesGrade_filter.
Qed.

(** A first-grade class dragged onto a slot that holds a second-grade one. *)
Lemma handleMoveClass_grade_exclusion_witness :
  timetable (handleMoveClass "Grade 1 - A" slot1 slot2 sampleState)
    = Some sampleTimetable
  ∧ handleMoveClass "Grade 1 - A" slot1 slot2 sampleState
    = setError (Some grade12Message) sampleState.
Proof.
  destruct (handleMoveClass_grade_exclusion sampleState sampleTimetable
              "Grade 1 - A" slot1 slot2 ["Grade 2 - A"] eq_refl eq_refl)
    as (Hexcl & _).
  destruct (Hexcl "Grade 2 - A" 1 2) as (_ & Hsame & _ & Hmsg).
  - apply (bool_decide_unpack _). vm_compute. exact I.
  - reflexivity.
  - reflexivity.
  - left. split; reflexivity.
  - split; [exact Hsame|]. apply Hmsg.
    + discriminate.
    + apply (bool_decide_unpack _). vm_compute. exact I.
    + simpl. lia.
Defined.

(* ===================================================================== *)
(** ** Applying a move *)
(* ===================================================================== *)

Section Entries.

Context {K : Type} `{Countable K} {A B : Type}.
Implicit Types (f : A → list B) (g : A → A) (m : gmap K A).

Lemma alter_as_insert g m k v :
  m !! k = Some v → alter g k m = <[k := g v]> (delete k m).
Proof.
  intros Hk. apply map_eq. intros j. destruct (decide (j = k)) as [->|Hne].
  - by rewrite lookup_alter_eq, lookup_insert_eq, Hk.
  - by rewrite lookup_alter_ne, lookup_insert_ne, lookup_delete_ne.
Qed.

Lemma map_entries_insert f m k v :
  m !! k = None → map_entries f (<[k := v]> m) ≡ₚ f v ++ map_entries f m.
Proof.
  intros Hk. unfold map_entries. by rewrite map_to_list_insert.
Qed.

(** The entries of a dictionary: those under one key, and the rest. *)
Lemma map_entries_lookup f m k v :
  m !! k = Some v → map_entries f m ≡ₚ f v ++ map_entries f (delete k m).
Proof.
  intros Hk. rewrite <-(insert_delete_id m k v) at 1 by done.
  apply map_entries_insert, lookup_delete_eq.
Qed.

(** A change under one key leaves the rest as it is. *)
Lemma map_entries_alter f g m k v :
  m !! k = Some v →
  map_entries f (alter g k m) ≡ₚ f (g v) ++ map_entries f (delete k m).
Proof.
  intros Hk. rewrite (alter_as_insert g m k v Hk).
  apply map_entries_insert, lookup_delete_eq.
Qed.

End Entries.

Section Applier.

Implicit Types (t : MultiRoomTimetable) (r : SlotRef) (g : list string → list string).

Lemma lookup_slot_alter_eq g r t :
  lookup_slot (alter_slot g r t) r = g <$> lookup_slot t r.
Proof.
  unfold lookup_slot, alter_slot. rewrite lookup_alter_eq.
  destruct (t !! room r) as [roomTimetable|]; [simpl|done].
  rewrite lookup_alter_eq.
  destruct (roomTimetable !! day r) as [dayTimetable|]; [simpl|done].
  by rewrite lookup_alter_eq.
Qed.

Lemma lookup_slot_alter_ne g r r' t :
  r ≠ r' → lookup_slot (alter_slot g r t) r' = lookup_slot t r'.
Proof.
  intros Hne. unfold lookup_slot, alter_slot.
  destruct (decide (room r = room r')) as [Hroom|Hroom];
    [|by rewrite lookup_alter_ne].
  rewrite Hroom, lookup_alter_eq.
  destruct (t !! room r') as [roomTimetable|]; [simpl|done].
  destruct (decide (day r = day r')) as [Hday|Hday];
    [|by rewrite lookup_alter_ne].
  rewrite Hday, lookup_alter_eq.
  destruct (roomTimetable !! day r') as [dayTimetable|]; [simpl|done].
  rewrite lookup_alter_ne; [done|].
  intros Hslot. destruct Hne. destruct r, r'; simpl in *. congruence.
Qed.

(** The entries of a timetable are those of one slot and a rest, and a
    change of that slot leaves the rest as it is. *)
Lemma timetable_entries_alter g r t l :
  lookup_slot t r = Some l →
  ∃ rest, timetable_entries t ≡ₚ l ++ rest
          ∧ timetable_entries (alter_slot g r t) ≡ₚ g l ++ rest.
Proof.
  unfold lookup_slot. intros Hl.
  destruct (t !! room r) as [roomTimetable|] eqn:Hroom; [simpl in Hl|done].
  destruct (roomTimetable !! day r) as [dayTimetable|] eqn:Hday; [simpl in Hl|done].
  exists (day_entries (delete (slot r) dayTimetable)
          ++ room_entries (delete (day r) roomTimetable)
          ++ timetable_entries (delete (room r) t)).
  unfold timetable_entries, alter_slot. split.
  - rewrite (map_entries_lookup _ _ _ _ Hroom). unfold room_entries at 1.
    rewrite (map_entries_lookup _ _ _ _ Hday). unfold day_entries at 1.
    rewrite (map_entries_lookup _ _ _ _ Hl). simpl.
    by rewrite <-!(assoc_L (++)).
  - rewrite (map_entries_alter _ _ _ _ _ Hroom). unfold room_entries at 1.
    rewrite (map_entries_alter _ _ _ _ _ Hday). unfold day_entries at 1.
    rewrite (map_entries_alter _ _ _ _ _ Hl). simpl.
    by rewrite <-!(assoc_L (++)).
Qed.

Lemma timetable_entries_alter_perm g r t l :
  lookup_slot t r = Some l → g l ≡ₚ l →
  timetable_entries (alter_slot g r t) ≡ₚ timetable_entries t.
Proof.
  intros Hl Hg. destruct (timetable_entries_alter g r t l Hl) as (rest & H1 & H2).
  by rewrite H1, H2, Hg.
Qed.

Lemma occurrences_NoDup (c : string) (l : list string) :
  NoDup l → c ∈ l → length (filter (λ x, x = c) l) = 1%nat.
Proof.
  intros Hnd (k & Hk)%elem_of_Permutation. rewrite Hk in Hnd |- *.
  apply NoDup_cons in Hnd as [Hnotin _].
  rewrite filter_cons_True by done. simpl. f_equal.
  destruct (filter (λ x, x = c) k) as [|x rest] eqn:E; [done|].
  assert (x ∈ filter (λ x, x = c) k) as [-> Hin]%list_elem_of_filter
    by (rewrite E; left).
  done.
Qed.

End Applier.

(** C1.  In a timetable where every class name occurs exactly once, a move
    that the validator accepts (different slots, destination present, class
    not in it, room left, no grade conflict) and that is applied (the class
    is found in its source slot) gives a timetable with the same total
    number of class entries, in which the moved class occurs exactly once:
    it is in the destination slot and not in the source slot.  Every class
    name occurs as often as before, so each still occurs exactly once. *)
Theorem handleMoveClass_relocates :
  ∀ (s : AppState) (t : MultiRoomTimetable) (className : string)
    (from to : SlotRef) (toSlotClasses fromSlotClasses : list string),
    timetable s = Some t →
    unique_classes t →
    from ≠ to →
    lookup_slot t to = Some toSlotClasses →
    className ∉ toSlotClasses →
    Z.of_nat (length toSlotClasses) < maxConcurrentClasses s →
    grade12_conflict (getGradeFromClassName className)
      (getGradeFromClassName <$> toSlotClasses) = false →
    grade34_conflict (getGradeFromClassName className)
      (getGradeFromClassName <$> toSlotClasses) = false →
    lookup_slot t from = Some fromSlotClasses →
    className ∈ fromSlotClasses →
    ∃ t' : MultiRoomTimetable,
      moveUpdater (maxConcurrentClasses s) className from to t = Moved t'
      ∧ handleMoveClass className from to s
        = setTimetable (Some t') (setError None s)
      ∧ total_classes t' = total_classes t
      ∧ occurrences className t' = 1%nat
      ∧ lookup_slot t' to = Some (sort_strings (toSlotClasses ++ [className]))
      ∧ className ∈ sort_strings (toSlotClasses ++ [className])
      ∧ (∃ l, lookup_slot t' from = Some l ∧ className ∉ l)
      ∧ (∀ c, occurrences c t' = occurrences c t)
      ∧ unique_classes t'.
Proof.
  intros s t className from to toSlotClasses fromSlotClasses
    Ht Huniq Hne Hto Hnotin Hroom H12 H34 Hfrom Hin.
  destruct (list_find (λ c, c = className) fromSlotClasses) as [[i c]|] eqn:Hfind;
    cycle 1.
  { apply list_find_None in Hfind. rewrite Forall_forall in Hfind.
    by destruct (Hfind className Hin). }
  pose proof Hfind as Hfound.
  apply list_find_Some in Hfound as (Hi & -> & _).
  set (t1 := alter_slot (delete i) from t).
  set (t2 := alter_slot (λ l, l ++ [className]) to t1).
  set (t3 := alter_slot sort_strings to t2).
  assert (moveUpdater (maxConcurrentClasses s) className from to t = Moved t3)
    as Hupd.
  { unfold moveUpdater. rewrite Hto, Hfrom, H12, H34.
    rewrite (bool_decide_eq_false_2 _ Hnotin).
    rewrite bool_decide_eq_false_2 by lia.
    unfold findIndex. by rewrite Hfind. }
  exists t3.
  assert (lookup_slot t1 to = Some toSlotClasses) as Hto1.
  { unfold t1. by rewrite lookup_slot_alter_ne. }
  assert (lookup_slot t2 to = Some (toSlotClasses ++ [className])) as Hto2.
  { unfold t2. by rewrite lookup_slot_alter_eq, Hto1. }
  assert (lookup_slot t3 to = Some (sort_strings (toSlotClasses ++ [className])))
    as Hto3.
  { unfold t3. by rewrite lookup_slot_alter_eq, Hto2. }
  assert (lookup_slot t3 from = Some (delete i fromSlotClasses)) as Hfrom3.
  { unfold t3, t2, t1. rewrite !lookup_slot_alter_ne by done.
    by rewrite lookup_slot_alter_eq, Hfrom. }
  destruct (timetable_entries_alter (delete i) from t _ Hfrom)
    as (rest & Hrest & Hrest1). fold t1 in Hrest1.
  assert (timetable_entries t ≡ₚ className :: timetable_entries t1) as P1.
  { rewrite Hrest, Hrest1.
    by rewrite (delete_Permutation fromSlotClasses i className Hi) at 1. }
  assert (timetable_entries t2 ≡ₚ className :: timetable_entries t1) as P2.
  { destruct (timetable_entries_alter (λ l, l ++ [className]) to t1 _ Hto1)
      as (rest' & Hr & Hr'). fold t2 in Hr'. rewrite Hr, Hr'.
    rewrite <-(assoc_L (++)). simpl. symmetry. apply Permutation_middle. }
  assert (timetable_entries t3 ≡ₚ timetable_entries t) as P.
  { unfold t3.
    rewrite (timetable_entries_alter_perm sort_strings to t2 _ Hto2)
      by apply merge_sort_Permutation.
    by rewrite P1, P2. }
  assert (NoDup fromSlotClasses) as Hndfrom.
  { unfold unique_classes in Huniq. rewrite Hrest in Huniq.
    by apply NoDup_app in Huniq as [? _]. }
  assert (unique_classes t3) as Huniq3.
  { unfold unique_classes. by rewrite P. }
  split_and!.
  - done.
  - unfold handleMoveClass. by rewrite (sameSlot_false _ _ Hne), Ht, Hupd.
  - unfold total_classes. by rewrite P.
  - unfold occurrences. apply occurrences_NoDup; [done|].
    rewrite P, Hrest. apply elem_of_app. by left.
  - done.
  - unfold sort_strings. rewrite merge_sort_Permutation.
    apply elem_of_app. right. by left.
  - exists (delete i fromSlotClasses). split; [done|].
    rewrite (delete_Permutation fromSlotClasses i className Hi) in Hndfrom.
    by apply NoDup_cons in Hndfrom as [? _].
  - intros c. unfold occurrences. by rewrite P.
  - done.
Qed.

(** The third-grade class of the sample moved to the second slot. *)
Lemma handleMoveClass_relocates_witness :
  ∃ t' : MultiRoomTimetable,
    moveUpdater 3 "Grade 3 - A" slot1 slot2 sampleTimetable = Moved t'
    ∧ total_classes t' = total_classes sampleTimetable
    ∧ occurrences "Grade 3 - A" t' = 1%nat
    ∧ lookup_slot t' slot2 = Some ["Grade 2 - A"; "Grade 3 - A"].
Proof.
  destruct (handleMoveClass_relocates sampleState sampleTimetable "Grade 3 - A"
              slot1 slot2 ["Grade 2 - A"] ["Grade 1 - A"; "Grade 3 - A"])
    as (t' & Hupd & _ & Htotal & Hocc & Hto & _).
  - reflexivity.
  - apply (bool_decide_unpack _). vm_compute. exact I.
  - discriminate.
  - reflexivity.
  - apply (bool_decide_unpack _). vm_compute. exact I.
  - simpl. lia.
  - reflexivity.
  - reflexivity.
  - reflexivity.
  - apply (bool_decide_unpack _). vm_compute. exact I.
  - exists t'. split_and!; [exact Hupd | exact Htotal | exact Hocc | exact Hto].
Defined.

(* ===================================================================== *)
(** ** The brief and the shape descriptor *)
(* ===================================================================== *)

Section Builder.

Lemma is_substring_refl (s : string) : is_substring s s.
Proof. exists "", "". by rewrite string_app_nil_l, string_app_nil_r. Qed.

Lemma is_substring_join (sep x : string) (l : list string) :
  x ∈ l → is_substring x (join sep l).
Proof.
  induction l as [|y l IH]; [by intros ?%elem_of_nil|].
  intros [->|Hin]%elem_of_cons.
  - destruct l as [|z l]; [apply is_substring_refl|].
    exists "", (sep +:+ join sep (z :: l)). by rewrite string_app_nil_l.
  - destruct l as [|z l]; [by apply elem_of_nil in Hin|].
    destruct (IH Hin) as (pre & post & Hjoin).
    exists (y +:+ sep +:+ pre), post.
    change (join sep (y :: z :: l)) with (y +:+ sep +:+ join sep (z :: l)).
    by rewrite Hjoin, !string_app_assoc.
Qed.

#[local] Instance roomName_inj : Inj (=) (=) roomName.
Proof. intros i j Heq. unfold roomName in Heq. by apply (inj _), (inj pretty) in Heq. Qed.

(** A dictionary filled by a loop that sets [key i] to [v] for each [i]. *)
Context {V : Type} (key : Z → string) (v : V).

Local Abbreviation filled l :=
  (foldl (λ (props : gmap string V) i, <[key i := v]> props) ∅ l).

Lemma filled_snoc (l : list Z) (i : Z) :
  filled (l ++ [i]) = <[key i := v]> (filled l).
Proof. by rewrite foldl_snoc. Qed.

Lemma filled_lookup_Some (l : list Z) (k : string) :
  k ∈ key <$> l → filled l !! k = Some v.
Proof.
  induction l as [|i l IH] using rev_ind; [by intros ?%elem_of_nil|].
  rewrite fmap_app, elem_of_app, filled_snoc. simpl. intros Hk.
  destruct (decide (k = key i)) as [->|Hne].
  - by rewrite lookup_insert_eq.
  - rewrite lookup_insert_ne by done. apply IH.
    destruct Hk as [Hk|Hk%list_elem_of_singleton]; done.
Qed.

Lemma filled_lookup_None (l : list Z) (k : string) :
  k ∉ key <$> l → filled l !! k = None.
Proof.
  induction l as [|i l IH] using rev_ind; [done|].
  rewrite fmap_app, not_elem_of_app, filled_snoc. simpl.
  intros [Hk Hi]. rewrite lookup_insert_ne; [by apply IH|].
  intros <-. apply Hi. by left.
Qed.

Lemma filled_size (l : list Z) :
  NoDup (key <$> l) → size (filled l) = length l.
Proof.
  induction l as [|i l IH] using rev_ind; [done|].
  rewrite fmap_app, NoDup_app, filled_snoc, length_app. simpl.
  intros (Hl & Hdisj & _).
  rewrite map_size_insert_None, IH by
    (done || (apply filled_lookup_None; intros Hin;
              apply (Hdisj _ Hin); by left)).
  lia.
Qed.

End Builder.

(** C7.  For positive numbers of sessions and rooms and a non-empty list of
    active days, the brief contains the name of every active day and every
    slot label from [Slot 1] to [Slot N]; the shape descriptor is an object
    whose properties are exactly the rooms [Room 1] to [Room N], each with
    the schema of a room, all of them listed as required, without
    repetition, so that it has as many top-level keys as rooms. *)
Theorem generatePrompt_and_schema_cover_parameters :
  ∀ (gradeCounts : GradeCounts) (maxConcurrentClasses sessionsPerDay : Z)
    (includedDays : list DayOfWeek) (numberOfRooms : Z),
    sessionsPerDay > 0 →
    numberOfRooms > 0 →
    includedDays ≠ [] →
    let prompt :=
      generatePrompt gradeCounts maxConcurrentClasses sessionsPerDay
        includedDays numberOfRooms in
    (∀ d, d ∈ includedDays → is_substring (day_name d) prompt)
    ∧ (∀ i, 1 ≤ i ≤ sessionsPerDay → is_substring (slotName i) prompt)
    ∧ ∃ properties required,
        generateResponseSchema sessionsPerDay includedDays numberOfRooms
          = SchemaObject properties required
        ∧ required = roomName <$> seqZ 1 numberOfRooms
        ∧ NoDup required
        ∧ Z.of_nat (length required) = numberOfRooms
        ∧ (∀ k, is_Some (properties !! k) ↔ k ∈ required)
        ∧ (∀ i, 1 ≤ i ≤ numberOfRooms →
             properties !! roomName i
             = Some (generateSingleRoomResponseSchema sessionsPerDay includedDays))
        ∧ Z.of_nat (size properties) = numberOfRooms
        ∧ Z.of_nat
            (schema_key_count
               (generateResponseSchema sessionsPerDay includedDays numberOfRooms))
          = numberOfRooms.
Proof.
  intros gc maxC sessions days rooms Hsessions Hrooms Hdays prompt.
  assert (NoDup (roomName <$> seqZ 1 rooms)) as Hnd.
  { apply (NoDup_fmap_2 _), NoDup_seqZ. }
  assert (Z.of_nat (size (foldl (λ (props : gmap string Schema) i,
                             <[roomName i :=
                                 generateSingleRoomResponseSchema sessions days]> props)
                            ∅ (for_1_to rooms))) = rooms) as Hsize.
  { unfold for_1_to. rewrite filled_size, length_seqZ by done. lia. }
  split_and!.
  - intros d Hd. unfold prompt, generatePrompt.
    apply (is_substring_trans _ (prompt_dayList days)).
    + apply is_substring_join. by apply list_elem_of_fmap_2.
    + apply is_substring_concat. unfold prompt_pieces.
      repeat first [apply list_elem_of_here | apply list_elem_of_further].
  - intros i Hi. unfold prompt, generatePrompt.
    apply (is_substring_trans _ (prompt_timeSlotList sessions)).
    + apply is_substring_join. unfold array_from_length.
      apply list_elem_of_fmap. exists (i - 1). split; [f_equal; lia|].
      apply elem_of_seqZ. lia.
    + apply is_substring_concat. unfold prompt_pieces.
      repeat first [apply list_elem_of_here | apply list_elem_of_further].
  - eexists _, _. split; [reflexivity|]. unfold for_1_to.
    split_and!; [done | done | | | | done | done].
    + rewrite length_fmap, length_seqZ. lia.
    + intros k. split.
      * intros [x Hx]. destruct (decide (k ∈ roomName <$> seqZ 1 rooms)); [done|].
        by rewrite filled_lookup_None in Hx.
      * intros Hk. rewrite filled_lookup_Some; [by eexists | done].
    + intros i Hi. apply filled_lookup_Some, list_elem_of_fmap_2, elem_of_seqZ. lia.
Qed.

(** The parameters of the first end-to-end scenario of the spec. *)
Lemma generatePrompt_and_schema_cover_parameters_witness :
  is_substring "Monday"
    (generatePrompt (λ g, match g with G1 => 2 | _ => 0 end) 3 2 [Monday] 1)
  ∧ is_substring "Slot 2"
      (generatePrompt (λ g, match g with G1 => 2 | _ => 0 end) 3 2 [Monday] 1)
  ∧ Z.of_nat (schema_key_count (generateResponseSchema 2 [Monday] 1)) = 1.
Proof.
  destruct (generatePrompt_and_schema_cover_parameters
              (λ g, match g with G1 => 2 | _ => 0 end) 3 2 [Monday] 1)
    as (Hday & Hslot & properties & required & _ & _ & _ & _ & _ & _ & _ & Hcount).
  - reflexivity.
  - reflexivity.
  - discriminate.
  - split_and!.
    + apply (Hday Monday). apply list_elem_of_here.
    + apply (Hslot 2). split; [discriminate | discriminate].
    + exact Hcount.
Defined.

(* ===================================================================== *)
(** ** The number inputs *)
(* ===================================================================== *)

(** X1.  Whatever is typed, the value a number input hands to its owner is
    at most [max], and at least [min] when [min ≤ max]: a text without a
    leading number gives [min], a number within the bounds gives itself,
    a smaller one [min] and a larger one [max]. *)
Theorem handleInputChange_clamps :
  ∀ (min max : Z) (text : string),
    min ≤ max →
    let value := handleInputChange min max text in
    min ≤ value ≤ max
    ∧ (parseInt10 text = None → value = min)
    ∧ (∀ n, parseInt10 text = Some n →
         (n < min → value = min)
         ∧ (min ≤ n ≤ max → value = n)
         ∧ (max < n → value = max)).
Proof.
  intros min max text Hle value. unfold value, handleInputChange.
  destruct (parseInt10 text) as [n|]; repeat case_bool_decide;
    split_and!; try lia; try done; intros ? [= <-]; split_and!; intros; lia.
Qed.

Lemma handleInputChange_clamps_witness :
  handleInputChange 1 5 "  42 rooms" = 5
  ∧ handleInputChange 1 5 "-3" = 1
  ∧ handleInputChange 1 5 "4" = 4
  ∧ handleInputChange 1 5 "many" = 1.
Proof.
  assert (1 ≤ 5) as Hle by lia.
  pose proof (handleInputChange_clamps 1 5 "  42 rooms" Hle) as H42.
  pose proof (handleInputChange_clamps 1 5 "-3" Hle) as Hneg.
  pose proof (handleInputChange_clamps 1 5 "4" Hle) as H4.
  pose proof (handleInputChange_clamps 1 5 "many" Hle) as Hnan.
  cbv zeta in H42, Hneg, H4, Hnan.
  destruct H42 as (_ & _ & H42). destruct (H42 42 eq_refl) as (_ & _ & H42').
  destruct Hneg as (_ & _ & Hneg). destruct (Hneg (-3) eq_refl) as (Hneg' & _).
  destruct H4 as (_ & _ & H4). destruct (H4 4 eq_refl) as (_ & H4' & _).
  destruct Hnan as (_ & Hnan & _).
  split_and!.
  - apply H42'. lia.
  - apply Hneg'. lia.
  - apply H4'. lia.
  - apply Hnan. reflexivity.
Defined.

Section Ranges.

Lemma numberInput_in_range (min max : Z) (a : InputAction) (value : Z) :
  min ≤ max → min ≤ value ≤ max → min ≤ numberInput min max a value ≤ max.
Proof.
  intros Hle Hv. destruct a as [| |text]; simpl.
  - unfold handleIncrement. case_bool_decide; lia.
  - unfold handleDecrement. case_bool_decide; lia.
  - unfold handleInputChange.
    destruct (parseInt10 text); repeat case_bool_decide; lia.
Qed.

Lemma field_bounds (f : NumberField) : field_min f ≤ field_max f.
Proof. by destruct f. Qed.

Lemma field_value_in_range (f : NumberField) (s : AppState) :
  parameters_in_range s → field_min f ≤ field_value f s ≤ field_max f.
Proof. intros (Hg & ? & ? & ?). destruct f; simpl; auto. Qed.

Lemma handleNumberInput_in_range (f : NumberField) (a : InputAction) (s : AppState) :
  parameters_in_range s → parameters_in_range (handleNumberInput f a s).
Proof.
  intros Hs.
  pose proof (numberInput_in_range _ _ a _ (field_bounds f)
                (field_value_in_range f s Hs)) as Hv.
  destruct Hs as (Hg & ? & ? & ?). unfold handleNumberInput.
  destruct f as [grade| | |]; unfold parameters_in_range;
    cbn [field_onValueChange field_value field_min field_max] in *;
    unfold handleGradeCountChange;
    cbn [setGradeCounts setMaxConcurrentClasses setSessionsPerDay
         setNumberOfRooms gradeCounts maxConcurrentClasses sessionsPerDay
         numberOfRooms];
    split_and!; try lia; try exact Hg.
  intros g. case_decide; [lia | apply Hg].
Qed.

Lemma handleMoveClass_parameters (className : string) (from to : SlotRef)
    (s : AppState) :
  let s' := handleMoveClass className from to s in
  gradeCounts s' = gradeCounts s
  ∧ maxConcurrentClasses s' = maxConcurrentClasses s
  ∧ sessionsPerDay s' = sessionsPerDay s
  ∧ numberOfRooms s' = numberOfRooms s
  ∧ includedDays s' = includedDays s
  ∧ isLoading s' = isLoading s
  ∧ draggedItem s' = draggedItem s.
Proof.
  unfold handleMoveClass. destruct (sameSlot from to); [done|].
  destruct (timetable s) as [t|]; [|done].
  by destruct (moveUpdater _ _ _ _ t).
Qed.

Lemma handleGenerateClick_parameters (ai : Collaborator) (s : AppState) :
  let s' := handleGenerateClick ai s in
  gradeCounts s' = gradeCounts s
  ∧ maxConcurrentClasses s' = maxConcurrentClasses s
  ∧ sessionsPerDay s' = sessionsPerDay s
  ∧ numberOfRooms s' = numberOfRooms s
  ∧ includedDays s' = includedDays s
  ∧ draggedItem s' = draggedItem s.
Proof.
  unfold handleGenerateClick. destruct (canGenerate s); [|done]. simpl.
  unfold handleGenerateClick_settle.
  by destruct (generateTimetable _ _ _ _ _ _) as [[?|]|?].
Qed.

Lemma handleEvent_in_range (s : AppState) (e : AppEvent) :
  parameters_in_range s → parameters_in_range (handleEvent s e).
Proof.
  intros Hs. destruct e as [f a|d|ai|c r d sl| |c from to]; simpl.
  - by apply handleNumberInput_in_range.
  - done.
  - pose proof (handleGenerateClick_parameters ai s) as (Hg & Hm & Hse & Hr & _).
    unfold parameters_in_range. simpl in *. by rewrite Hg, Hm, Hse, Hr.
  - done.
  - done.
  - pose proof (handleMoveClass_parameters c from to s) as (Hg & Hm & Hse & Hr & _).
    unfold parameters_in_range. simpl in *. by rewrite Hg, Hm, Hse, Hr.
Qed.

Lemma handleEvent_days_sublist (s : AppState) (e : AppEvent) :
  sublist (includedDays s) DAYS_OF_WEEK →
  sublist (includedDays (handleEvent s e)) DAYS_OF_WEEK.
Proof.
  intros Hs. destruct e as [f a|d|ai|c r d sl| |c from to]; simpl.
  - by destruct f.
  - apply toggleDay_sublist.
    exact (sublist_NoDup _ _ DAYS_OF_WEEK_NoDup Hs).
  - pose proof (handleGenerateClick_parameters ai s) as (_ & _ & _ & _ & Hd & _).
    simpl in Hd. by rewrite Hd.
  - done.
  - done.
  - pose proof (handleMoveClass_parameters c from to s) as (_ & _ & _ & _ & Hd & _).
    simpl in Hd. by rewrite Hd.
Qed.

Lemma handleGenerateClick_isLoading (ai : Collaborator) (s : AppState) :
  canGenerate s = true → isLoading (handleGenerateClick ai s) = false.
Proof.
  intros Hcan. unfold handleGenerateClick. rewrite Hcan. cbn [negb].
  unfold handleGenerateClick_settle.
  match goal with
  | |- context [generateTimetable ?a ?b ?c ?d ?e ?f] =>
      destruct (generateTimetable a b c d e f) as [[?|]|?]
  end; done.
Qed.

Lemma totalClasses_sum (s : AppState) :
  totalClasses s
  = gradeCounts s G1 + gradeCounts s G2 + gradeCounts s G3
    + gradeCounts s G4 + gradeCounts s G5.
Proof. unfold totalClasses. simpl. lia. Qed.

End Ranges.

(** X2.  Whatever the user does (number inputs clicked or typed in, days
    toggled, generations requested, classes dragged and moved), the grade
    counts stay between 0 and 20, the maximum per slot between 1 and 20,
    the sessions per day between 1 and 5 and the rooms between 1 and 10;
    the active days stay a subsequence of the week; so the total is at most
    100 and the capacity at most 5000. *)
Theorem reachable_parameters_in_range :
  ∀ events : list AppEvent,
    let s := foldl handleEvent initialState events in
    parameters_in_range s
    ∧ sublist (includedDays s) DAYS_OF_WEEK
    ∧ 0 ≤ totalClasses s ≤ 100
    ∧ 0 ≤ maxPossibleClasses s ≤ 5000.
Proof.
  intros events s.
  assert (parameters_in_range s ∧ sublist (includedDays s) DAYS_OF_WEEK)
    as [Hrange Hdays].
  { unfold s. clear s.
    assert (parameters_in_range initialState
            ∧ sublist (includedDays initialState) DAYS_OF_WEEK) as Hinit.
    { split; [|reflexivity]. unfold parameters_in_range. simpl.
      split_and!; intros; lia. }
    revert Hinit. generalize initialState.
    induction events as [|e events IH]; intros s0 [Hr Hd]; [done|].
    simpl. apply IH. split.
    - by apply handleEvent_in_range.
    - by apply handleEvent_days_sublist. }
  split; [done|]. split; [done|].
  destruct Hrange as (Hg & Hmax & Hsessions & Hrooms). split.
  - rewrite totalClasses_sum.
    pose proof (Hg G1). pose proof (Hg G2). pose proof (Hg G3).
    pose proof (Hg G4). pose proof (Hg G5). lia.
  - unfold maxPossibleClasses.
    apply sublist_length in Hdays. simpl in Hdays.
    assert (0 ≤ Z.of_nat (length (includedDays s)) ≤ 5) as Hlen by lia.
    revert Hlen. generalize (Z.of_nat (length (includedDays s))). intros n Hn.
    assert (0 ≤ maxConcurrentClasses s * n ≤ 100) as H1 by nia.
    assert (0 ≤ maxConcurrentClasses s * n * sessionsPerDay s ≤ 500) as H2 by nia.
    nia.
Qed.

(* ===================================================================== *)
(** ** More on day toggles *)
(* ===================================================================== *)

Section MoreToggles.

Lemma filter_ext_in {A} (P Q : A → Prop) `{∀ x, Decision (P x)}
    `{∀ x, Decision (Q x)} (l : list A) :
  (∀ x, x ∈ l → (P x ↔ Q x)) → filter P l = filter Q l.
Proof.
  induction l as [|x l IH]; intros Hext; [done|].
  rewrite !filter_cons. rewrite IH by (intros y Hy; apply Hext; by right).
  pose proof (Hext x ltac:(left)). repeat case_decide; tauto.
Qed.

Lemma filter_sublist_self {A} `{EqDecision A} (l k : list A) :
  NoDup k → sublist l k → filter (λ x, x ∈ l) k = l.
Proof.
  intros Hnd Hsub. induction Hsub as [|x l k Hsub IH|x l k Hsub IH].
  - done.
  - apply NoDup_cons in Hnd as [Hx Hnd].
    rewrite filter_cons_True by left. f_equal.
    rewrite (filter_ext_in _ (λ y, y ∈ l)); [by apply IH|].
    intros y Hy. rewrite elem_of_cons. split; [|by right].
    intros [->|?]; done.
  - apply NoDup_cons in Hnd as [Hx Hnd].
    rewrite filter_cons_False; [by apply IH|].
    intros Hin. apply Hx. by eapply sublist_subseteq.
Qed.

(** Two selections of days of the week with the same days are the same
    list. *)
Lemma days_sublist_ext (a b : list DayOfWeek) :
  sublist a DAYS_OF_WEEK → sublist b DAYS_OF_WEEK →
  (∀ d, d ∈ a ↔ d ∈ b) → a = b.
Proof.
  intros Ha Hb Hext.
  rewrite <-(filter_sublist_self a DAYS_OF_WEEK DAYS_OF_WEEK_NoDup Ha).
  rewrite <-(filter_sublist_self b DAYS_OF_WEEK DAYS_OF_WEEK_NoDup Hb).
  by apply list_filter_iff.
Qed.

Lemma toggleDay_elem_of (day d : DayOfWeek) (prev : list DayOfWeek) :
  d ∈ toggleDay day prev ↔ (if decide (d = day) then d ∉ prev else d ∈ prev).
Proof.
  unfold toggleDay, sort_by. rewrite merge_sort_Permutation.
  case_bool_decide as Hin.
  - rewrite list_elem_of_filter. case_decide; subst; tauto.
  - rewrite elem_of_app, list_elem_of_singleton. case_decide; subst; tauto.
Qed.

End MoreToggles.

(** X3.  A toggle changes the membership of the toggled day and of no other
    day: afterwards the day is active exactly if it was not, and every
    other day is active exactly if it was. *)
Theorem handleDayToggle_flips_one_day :
  ∀ (s : AppState) (day : DayOfWeek),
    let days := includedDays (handleDayToggle day s) in
    (day ∈ days ↔ day ∉ includedDays s)
    ∧ (∀ d, d ≠ day → (d ∈ days ↔ d ∈ includedDays s)).
Proof.
  intros s day days. unfold days. simpl. split.
  - rewrite toggleDay_elem_of. by rewrite decide_True.
  - intros d Hne. rewrite toggleDay_elem_of. by rewrite decide_False.
Qed.

(** X4.  On a list of active days that is a subsequence of the week (as
    every reachable one is), toggling a day twice gives the list back, and
    two toggles give the same list in either order. *)
Theorem toggleDay_twice_and_order :
  ∀ (prev : list DayOfWeek) (a b : DayOfWeek),
    sublist prev DAYS_OF_WEEK →
    toggleDay a (toggleDay a prev) = prev
    ∧ toggleDay a (toggleDay b prev) = toggleDay b (toggleDay a prev).
Proof.
  intros prev a b Hsub.
  assert (NoDup prev) as Hnd by exact (sublist_NoDup _ _ DAYS_OF_WEEK_NoDup Hsub).
  assert (∀ d l, sublist l DAYS_OF_WEEK → NoDup (toggleDay d l)) as Hnd'.
  { intros d l Hl. eapply sublist_NoDup; [apply DAYS_OF_WEEK_NoDup|].
    apply toggleDay_sublist. exact (sublist_NoDup _ _ DAYS_OF_WEEK_NoDup Hl). }
  assert (∀ d l, sublist l DAYS_OF_WEEK → sublist (toggleDay d l) DAYS_OF_WEEK)
    as Hsub'.
  { intros d l Hl. apply toggleDay_sublist.
    exact (sublist_NoDup _ _ DAYS_OF_WEEK_NoDup Hl). }
  split.
  - apply days_sublist_ext; [by auto | done |].
    intros d. destruct (decide (d ∈ prev));
      repeat (rewrite toggleDay_elem_of || case_decide); tauto.
  - apply days_sublist_ext; [by auto | by auto |].
    intros d. destruct (decide (d ∈ prev));
      repeat (rewrite toggleDay_elem_of || case_decide); subst; tauto.
Qed.

Lemma toggleDay_twice_and_order_witness :
  toggleDay Wednesday (toggleDay Wednesday [Monday; Wednesday; Friday])
    = [Monday; Wednesday; Friday]
  ∧ toggleDay Tuesday (toggleDay Friday [Monday; Wednesday; Friday])
    = toggleDay Friday (toggleDay Tuesday [Monday; Wednesday; Friday]).
Proof.
  pose proof (toggleDay_twice_and_order [Monday; Wednesday; Friday]
                Wednesday Wednesday) as [Htwice _].
  { unfold DAYS_OF_WEEK.
    repeat first [apply sublist_nil | apply sublist_skip | apply sublist_cons]. }
  pose proof (toggleDay_twice_and_order [Monday; Wednesday; Friday]
                Tuesday Friday) as [_ Horder].
  { unfold DAYS_OF_WEEK.
    repeat first [apply sublist_nil | apply sublist_skip | apply sublist_cons]. }
  split; [exact Htwice | exact Horder].
Defined.

(* ===================================================================== *)
(** ** What every move keeps *)
(* ===================================================================== *)

Section Moves.

Implicit Types (t : MultiRoomTimetable) (r : SlotRef) (g : list string → list string).

Lemma alter_slot_compose (f g : list string → list string) r t :
  alter_slot f r (alter_slot g r t) = alter_slot (f ∘ g) r t.
Proof.
  unfold alter_slot. rewrite alter_alter_eq. apply alter_ext.
  intros roomTimetable _. simpl. rewrite alter_alter_eq. apply alter_ext.
  intros dayTimetable _. simpl. by rewrite alter_alter_eq.
Qed.

Lemma alter_slot_commute (f g : list string → list string) r r' t :
  r ≠ r' →
  alter_slot f r (alter_slot g r' t) = alter_slot g r' (alter_slot f r t).
Proof.
  intros Hne. unfold alter_slot.
  destruct (decide (room r = room r')) as [Hroom|Hroom];
    [|by apply alter_alter_ne].
  rewrite Hroom, !alter_alter_eq. apply alter_ext.
  intros roomTimetable _. simpl.
  destruct (decide (day r = day r')) as [Hday|Hday];
    [|by apply alter_alter_ne].
  rewrite Hday, !alter_alter_eq. apply alter_ext.
  intros dayTimetable _. simpl. apply alter_alter_ne.
  intros Hslot. destruct Hne. destruct r, r'; simpl in *. congruence.
Qed.

Lemma alter_slot_id (f : list string → list string) r t :
  (∀ l, lookup_slot t r = Some l → f l = l) → alter_slot f r t = t.
Proof.
  intros Hf. unfold alter_slot. apply alter_id. intros roomTimetable Hroom.
  apply alter_id. intros dayTimetable Hday. apply alter_id. intros l Hl.
  apply Hf. unfold lookup_slot. rewrite Hroom. simpl. rewrite Hday. done.
Qed.

(** The slots of a timetable are one slot and a rest, and a change of
    that slot leaves the rest as it is. *)
Lemma timetable_slots_alter g r t l :
  lookup_slot t r = Some l →
  ∃ rest, timetable_slots t ≡ₚ l :: rest
          ∧ timetable_slots (alter_slot g r t) ≡ₚ g l :: rest.
Proof.
  unfold lookup_slot. intros Hl.
  destruct (t !! room r) as [roomTimetable|] eqn:Hroom; [simpl in Hl|done].
  destruct (roomTimetable !! day r) as [dayTimetable|] eqn:Hday; [simpl in Hl|done].
  exists (map_entries (λ l : list string, [l]) (delete (slot r) dayTimetable)
          ++ map_entries (map_entries (λ l : list string, [l]))
               (delete (day r) roomTimetable)
          ++ timetable_slots (delete (room r) t)).
  unfold timetable_slots, alter_slot. split.
  - rewrite (map_entries_lookup _ _ _ _ Hroom).
    rewrite (map_entries_lookup _ _ _ _ Hday).
    rewrite (map_entries_lookup _ _ _ _ Hl). simpl.
    by rewrite <-!(assoc_L (++)).
  - rewrite (map_entries_alter _ _ _ _ _ Hroom).
    rewrite (map_entries_alter _ _ _ _ _ Hday).
    rewrite (map_entries_alter _ _ _ _ _ Hl). simpl.
    by rewrite <-!(assoc_L (++)).
Qed.

Lemma lookup_slot_Forall (P : list string → Prop) r t l :
  Forall P (timetable_slots t) → lookup_slot t r = Some l → P l.
Proof.
  intros Hall Hl.
  destruct (timetable_slots_alter id r t l Hl) as (rest & Hrest & _).
  rewrite Hrest in Hall. by apply Forall_cons in Hall as [? _].
Qed.

Lemma alter_slot_Forall (P : list string → Prop) g r t :
  Forall P (timetable_slots t) →
  (∀ l, lookup_slot t r = Some l → P (g l)) →
  Forall P (timetable_slots (alter_slot g r t)).
Proof.
  intros Hall Hg. destruct (lookup_slot t r) as [l|] eqn:Hl.
  - destruct (timetable_slots_alter g r t l Hl) as (rest & Hrest & Hrest').
    rewrite Hrest in Hall. rewrite Hrest'.
    apply Forall_cons in Hall as [_ Hall]. apply Forall_cons. auto.
  - rewrite alter_slot_id; [done|]. intros l. by rewrite Hl.
Qed.

(** What an applied move is made of. *)
Lemma moveUpdater_Moved (maxC : Z) (className : string) (from to : SlotRef) t t' :
  moveUpdater maxC className from to t = Moved t' →
  ∃ toSlotClasses fromSlotClasses classIndex,
    from ≠ to
    ∧ lookup_slot t to = Some toSlotClasses
    ∧ (className ∉ toSlotClasses)
    ∧ Z.of_nat (length toSlotClasses) < maxC
    ∧ grade12_conflict (getGradeFromClassName className)
        (getGradeFromClassName <$> toSlotClasses) = false
    ∧ grade34_conflict (getGradeFromClassName className)
        (getGradeFromClassName <$> toSlotClasses) = false
    ∧ lookup_slot t from = Some fromSlotClasses
    ∧ list_find (λ c, c = className) fromSlotClasses = Some (classIndex, className)
    ∧ t' = alter_slot (λ l, sort_strings (l ++ [className])) to
             (alter_slot (delete classIndex) from t).
Proof.
  unfold moveUpdater.
  destruct (lookup_slot t to) as [toSlotClasses|] eqn:Hto; [|done].
  case_bool_decide as Hin; [done|]. case_bool_decide as Hfull; [done|].
  destruct (grade12_conflict _ _) eqn:H12; [done|].
  destruct (grade34_conflict _ _) eqn:H34; [done|].
  destruct (lookup_slot t from) as [fromSlotClasses|] eqn:Hfrom; [|done].
  unfold findIndex.
  destruct (list_find _ fromSlotClasses) as [[i c]|] eqn:Hfind; [|done].
  simpl. intros [= <-].
  pose proof Hfind as (Hi & -> & _)%list_find_Some.
  exists toSlotClasses, fromSlotClasses, i. split_and!; try done.
  - intros ->. rewrite Hto in Hfrom. injection Hfrom as ->.
    apply Hin. by eapply list_elem_of_lookup_2.
  - lia.
  - by rewrite alter_slot_compose.
Qed.

(** An applied move permutes the class entries. *)
Lemma moveUpdater_entries (maxC : Z) (className : string) (from to : SlotRef) t t' :
  moveUpdater maxC className from to t = Moved t' →
  timetable_entries t' ≡ₚ timetable_entries t.
Proof.
  intros Hmoved.
  apply moveUpdater_Moved in Hmoved
    as (toL & fromL & i & Hne & Hto & _ & _ & _ & _ & Hfrom & Hfind & ->).
  apply list_find_Some in Hfind as (Hi & _ & _).
  set (t1 := alter_slot (delete i) from t).
  assert (lookup_slot t1 to = Some toL) as Hto1.
  { unfold t1. by rewrite lookup_slot_alter_ne. }
  destruct (timetable_entries_alter (delete i) from t _ Hfrom)
    as (rest & Hrest & Hrest1). fold t1 in Hrest1.
  destruct (timetable_entries_alter (λ l, sort_strings (l ++ [className])) to t1 _ Hto1)
    as (rest' & Hr & Hr').
  rewrite Hr'. unfold sort_strings. rewrite merge_sort_Permutation.
  rewrite <-(assoc_L (++)). simpl. rewrite <-Permutation_middle, <-Hr, Hrest1, Hrest.
  by rewrite (delete_Permutation fromL i className Hi) at 2.
Qed.

(** A property of every slot is kept by an applied move if the two slots
    it changes have it afterwards. *)
Lemma moveUpdater_Forall (P : list string → Prop) (maxC : Z)
    (className : string) (from to : SlotRef) t t' :
  moveUpdater maxC className from to t = Moved t' →
  Forall P (timetable_slots t) →
  (∀ toL fromL i,
      P toL → P fromL → className ∉ toL → Z.of_nat (length toL) < maxC →
      grade12_conflict (getGradeFromClassName className)
        (getGradeFromClassName <$> toL) = false →
      grade34_conflict (getGradeFromClassName className)
        (getGradeFromClassName <$> toL) = false →
      fromL !! i = Some className →
      P (sort_strings (toL ++ [className])) ∧ P (delete i fromL)) →
  Forall P (timetable_slots t').
Proof.
  intros Hmoved Hall HP.
  apply moveUpdater_Moved in Hmoved
    as (toL & fromL & i & Hne & Hto & Hnotin & Hroom & H12 & H34 & Hfrom
        & Hfind & ->).
  apply list_find_Some in Hfind as (Hi & _ & _).
  pose proof (lookup_slot_Forall P _ _ _ Hall Hto) as HPto.
  pose proof (lookup_slot_Forall P _ _ _ Hall Hfrom) as HPfrom.
  destruct (HP toL fromL i HPto HPfrom Hnotin Hroom H12 H34 Hi) as [Hnew Hold].
  apply alter_slot_Forall.
  - apply alter_slot_Forall; [done|]. intros l. rewrite Hfrom. by intros [= <-].
  - intros l. rewrite lookup_slot_alter_ne, Hto by done. by intros [= <-].
Qed.

(** The three things a call of [handleMoveClass] can do. *)
Lemma handleMoveClass_cases (className : string) (from to : SlotRef) (s : AppState) :
  handleMoveClass className from to s = s
  ∨ (∃ message, handleMoveClass className from to s = setError (Some message) s)
  ∨ (∃ t t', timetable s = Some t
             ∧ moveUpdater (maxConcurrentClasses s) className from to t = Moved t'
             ∧ handleMoveClass className from to s
               = setTimetable (Some t') (setError None s)).
Proof.
  unfold handleMoveClass. destruct (sameSlot from to); [by left|].
  destruct (timetable s) as [t|] eqn:Ht; [|by left].
  destruct (moveUpdater _ _ _ _ t) as [|message|t'] eqn:E.
  - by left.
  - right. left. by eexists.
  - right. right. by exists t, t'.
Qed.

(** A relation between timetables that holds along every applied move
    holds along every sequence of moves. *)
Lemma applyMoves_related (maxC : Z) (Q : relation MultiRoomTimetable) :
  Reflexive Q → Transitive Q →
  (∀ className from to t t',
      moveUpdater maxC className from to t = Moved t' → Q t t') →
  ∀ (moves : list Move) (s : AppState) t,
    maxConcurrentClasses s = maxC →
    timetable s = Some t →
    ∃ t', timetable (applyMoves moves s) = Some t' ∧ Q t t'.
Proof.
  intros Hrefl Htrans Hstep moves.
  induction moves as [|[[c from] to] moves IH]; intros s t Hmax Ht.
  - exists t. by split.
  - unfold applyMoves. simpl. fold (applyMoves moves (handleMoveClass c from to s)).
    destruct (handleMoveClass_cases c from to s)
      as [->|[[message ->]|(t0 & t' & Ht0 & Hupd & ->)]].
    + by apply IH.
    + by apply IH.
    + rewrite Ht in Ht0. injection Ht0 as <-. rewrite Hmax in Hupd.
      destruct (IH (setTimetable (Some t') (setError None s)) t' Hmax eq_refl)
        as (t'' & Ht'' & HQ).
      exists t''. split; [done|]. etrans; [|done]. by eapply Hstep.
Qed.

Lemma applyMoves_maxConcurrentClasses (moves : list Move) (s : AppState) :
  maxConcurrentClasses (applyMoves moves s) = maxConcurrentClasses s.
Proof.
  revert s; induction moves as [|[[c from] to] moves IH]; intros s; [done|].
  unfold applyMoves. simpl. fold (applyMoves moves (handleMoveClass c from to s)).
  rewrite IH. apply handleMoveClass_parameters.
Qed.

End Moves.

Section SlotProperties.

Lemma includesGrade_app (g : Z) (l k : list string) :
  includesGrade g (getGradeFromClassName <$> (l ++ k))
  = includesGrade g (getGradeFromClassName <$> l)
    || includesGrade g (getGradeFromClassName <$> k).
Proof.
  unfold includesGrade. rewrite fmap_app.
  apply eq_true_iff_eq. rewrite orb_true_iff, !bool_decide_eq_true.
  apply elem_of_app.
Qed.

Lemma includesGrade_Permutation (g : Z) (l k : list string) :
  l ≡ₚ k →
  includesGrade g (getGradeFromClassName <$> l)
  = includesGrade g (getGradeFromClassName <$> k).
Proof. intros Hperm. unfold includesGrade. apply bool_decide_ext. by rewrite Hperm. Qed.

Lemma includesGrade_sublist (g : Z) (l k : list string) :
  sublist l k →
  includesGrade g (getGradeFromClassName <$> l) = true →
  includesGrade g (getGradeFromClassName <$> k) = true.
Proof.
  intros Hsub. unfold includesGrade. rewrite !bool_decide_eq_true.
  rewrite !list_elem_of_fmap. intros (c & Hc & Hin). exists c. split; [done|].
  by eapply sublist_subseteq.
Qed.

Lemma includesGrade_singleton (g : Z) (c : string) :
  includesGrade g (getGradeFromClassName <$> [c])
  = bool_decide (getGradeFromClassName c = Some g).
Proof.
  unfold includesGrade. simpl. apply bool_decide_ext.
  rewrite list_elem_of_singleton. split; by intros ->.
Qed.

Lemma grades_apart_sublist (l k : list string) :
  sublist l k → grades_apart k = true → grades_apart l = true.
Proof.
  intros Hsub. unfold grades_apart.
  pose proof (includesGrade_sublist 1 _ _ Hsub).
  pose proof (includesGrade_sublist 2 _ _ Hsub).
  pose proof (includesGrade_sublist 3 _ _ Hsub).
  pose proof (includesGrade_sublist 4 _ _ Hsub).
  destruct (includesGrade 1 (_ <$> l)), (includesGrade 2 (_ <$> l)),
    (includesGrade 3 (_ <$> l)), (includesGrade 4 (_ <$> l));
    destruct (includesGrade 1 (_ <$> k)), (includesGrade 2 (_ <$> k)),
      (includesGrade 3 (_ <$> k)), (includesGrade 4 (_ <$> k));
    simpl; auto; intuition discriminate.
Qed.

(** The validator's two grade tests are what keeps a slot's grades apart
    when a class joins it. *)
Lemma grades_apart_join (className : string) (l : list string) :
  grades_apart l = true →
  grade12_conflict (getGradeFromClassName className)
    (getGradeFromClassName <$> l) = false →
  grade34_conflict (getGradeFromClassName className)
    (getGradeFromClassName <$> l) = false →
  grades_apart (sort_strings (l ++ [className])) = true.
Proof.
  unfold grades_apart, grade12_conflict, grade34_conflict, sort_strings.
  rewrite !(includesGrade_Permutation _ _ _ (merge_sort_Permutation _ _)).
  rewrite !includesGrade_app, !includesGrade_singleton.
  destruct (getGradeFromClassName className) as [g|]; simpl.
  - destruct (includesGrade 1 _), (includesGrade 2 _),
      (includesGrade 3 _), (includesGrade 4 _);
      repeat case_bool_decide; simplify_eq; simpl; done.
  - by rewrite !orb_false_r.
Qed.

Lemma Sorted_sublist (l k : list string) :
  sublist l k → Sorted String.le k → Sorted String.le l.
Proof.
  intros Hsub Hk. apply StronglySorted_Sorted.
  apply (StronglySorted_sublist _ _ _ Hsub).
  apply Sorted_StronglySorted; [apply _ | done].
Qed.

Lemma sort_strings_sorted (l : list string) : Sorted String.le (sort_strings l).
Proof. apply Sorted_merge_sort, _. Qed.

Lemma sort_strings_length (l : list string) : length (sort_strings l) = length l.
Proof. unfold sort_strings. by rewrite merge_sort_Permutation. Qed.

(** Sorting a sorted list with one more class, then taking that class
    out, gives the list back. *)
Lemma sort_strings_delete (l : list string) (className : string) (j : nat) :
  Sorted String.le l →
  sort_strings (l ++ [className]) !! j = Some className →
  delete j (sort_strings (l ++ [className])) = l.
Proof.
  intros Hl Hj. apply (Sorted_unique String.le).
  - eapply Sorted_sublist; [apply sublist_delete | apply sort_strings_sorted].
  - done.
  - apply (inj (className ::.)).
    rewrite <-(delete_Permutation _ _ _ Hj). unfold sort_strings.
    rewrite merge_sort_Permutation. symmetry. apply Permutation_cons_append.
Qed.

(** Taking a class out of a sorted list and sorting it back in gives the
    list back. *)
Lemma sort_strings_reinsert (l : list string) (className : string) (i : nat) :
  Sorted String.le l →
  l !! i = Some className →
  sort_strings (delete i l ++ [className]) = l.
Proof.
  intros Hl Hi. apply (Sorted_unique String.le).
  - apply sort_strings_sorted.
  - done.
  - unfold sort_strings. rewrite merge_sort_Permutation.
    rewrite (delete_Permutation _ _ _ Hi) at 2.
    symmetry. apply Permutation_cons_append.
Qed.

End SlotProperties.

(** X5.  Whatever moves are attempted, one after the other, accepted or
    not, the timetable holds the same class entries as before, each as many
    times: the total is the same, and if every class occurred once, every
    class still occurs once. *)
Theorem applyMoves_keeps_classes :
  ∀ (moves : list Move) (s : AppState) (t : MultiRoomTimetable),
    timetable s = Some t →
    ∃ t' : MultiRoomTimetable,
      timetable (applyMoves moves s) = Some t'
      ∧ timetable_entries t' ≡ₚ timetable_entries t
      ∧ total_classes t' = total_classes t
      ∧ (∀ c, occurrences c t' = occurrences c t)
      ∧ (unique_classes t → unique_classes t').
Proof.
  intros moves s t Ht.
  destruct (applyMoves_related (maxConcurrentClasses s)
              (λ t t', timetable_entries t' ≡ₚ timetable_entries t))
    with (moves := moves) (s := s) (t := t) as (t' & Ht' & Hperm); try done.
  - by intros t0.
  - intros t0 t1 t2 H01 H12. by rewrite H12.
  - intros c from to t0 t1. apply moveUpdater_entries.
  - exists t'. split_and!; [done | done | | |].
    + unfold total_classes. by rewrite Hperm.
    + intros c. unfold occurrences. by rewrite Hperm.
    + unfold unique_classes. by rewrite Hperm.
Qed.

(** Two moves on the sample: the second is refused for its grade. *)
Lemma applyMoves_keeps_classes_witness :
  ∃ t' : MultiRoomTimetable,
    timetable (applyMoves [("Grade 3 - A", slot1, slot2);
                           ("Grade 1 - A", slot1, slot2)] sampleState)
      = Some t'
    ∧ total_classes t' = total_classes sampleTimetable.
Proof.
  destruct (applyMoves_keeps_classes
              [("Grade 3 - A", slot1, slot2); ("Grade 1 - A", slot1, slot2)]
              sampleState sampleTimetable eq_refl)
    as (t' & Ht' & _ & Htotal & _).
  exists t'. split; [exact Ht' | exact Htotal].
Defined.

(** X6.  If no slot holds more classes than the configured maximum, none
    does after any sequence of attempted moves. *)
Theorem applyMoves_keeps_capacity :
  ∀ (moves : list Move) (s : AppState) (t : MultiRoomTimetable),
    timetable s = Some t →
    slots_within (maxConcurrentClasses s) t →
    ∃ t' : MultiRoomTimetable,
      timetable (applyMoves moves s) = Some t'
      ∧ slots_within (maxConcurrentClasses s) t'.
Proof.
  intros moves s t Ht Hwithin.
  destruct (applyMoves_related (maxConcurrentClasses s)
              (λ t t', slots_within (maxConcurrentClasses s) t →
                       slots_within (maxConcurrentClasses s) t'))
    with (moves := moves) (s := s) (t := t) as (t' & Ht' & Hkeep); try done.
  - by intros t0.
  - intros t0 t1 t2 H01 H12 H0. auto.
  - intros c from to t0 t1 Hmoved H0.
    apply (moveUpdater_Forall _ _ _ _ _ _ _ Hmoved H0).
    intros toL fromL i Hto Hfrom _ Hroom _ _ Hi. simpl. split.
    + rewrite sort_strings_length, length_app. simpl. lia.
    + pose proof (sublist_length _ _ (sublist_delete fromL i)). lia.
  - exists t'. auto.
Qed.

Lemma applyMoves_keeps_capacity_witness :
  ∃ t' : MultiRoomTimetable,
    timetable (applyMoves [("Grade 3 - A", slot1, slot2);
                           ("Grade 1 - A", slot1, slot2)] sampleState)
      = Some t'
    ∧ slots_within 3 t'.
Proof.
  destruct (applyMoves_keeps_capacity
              [("Grade 3 - A", slot1, slot2); ("Grade 1 - A", slot1, slot2)]
              sampleState sampleTimetable eq_refl)
    as (t' & Ht' & Hwithin).
  - apply (bool_decide_unpack _). vm_compute. exact I.
  - exists t'. split; [exact Ht' | exact Hwithin].
Defined.

(** X7.  If no slot holds a first-grade class with a second-grade one, nor
    a third-grade class with a fourth-grade one, none does after any
    sequence of attempted moves. *)
Theorem applyMoves_keeps_grades_apart :
  ∀ (moves : list Move) (s : AppState) (t : MultiRoomTimetable),
    timetable s = Some t →
    grades_separated t →
    ∃ t' : MultiRoomTimetable,
      timetable (applyMoves moves s) = Some t' ∧ grades_separated t'.
Proof.
  intros moves s t Ht Hsep.
  destruct (applyMoves_related (maxConcurrentClasses s)
              (λ t t', grades_separated t → grades_separated t'))
    with (moves := moves) (s := s) (t := t) as (t' & Ht' & Hkeep); try done.
  - by intros t0.
  - intros t0 t1 t2 H01 H12 H0. auto.
  - intros c from to t0 t1 Hmoved H0.
    apply (moveUpdater_Forall _ _ _ _ _ _ _ Hmoved H0).
    intros toL fromL i Hto Hfrom _ _ H12 H34 Hi. simpl. split.
    + by apply grades_apart_join.
    + eapply grades_apart_sublist; [apply sublist_delete | done].
  - exists t'. auto.
Qed.

Lemma applyMoves_keeps_grades_apart_witness :
  ∃ t' : MultiRoomTimetable,
    timetable (applyMoves [("Grade 3 - A", slot1, slot2);
                           ("Grade 1 - A", slot1, slot2)] sampleState)
      = Some t'
    ∧ grades_separated t'.
Proof.
  destruct (applyMoves_keeps_grades_apart
              [("Grade 3 - A", slot1, slot2); ("Grade 1 - A", slot1, slot2)]
              sampleState sampleTimetable eq_refl)
    as (t' & Ht' & Hsep).
  - apply (bool_decide_unpack _). vm_compute. exact I.
  - exists t'. split; [exact Ht' | exact Hsep].
Defined.



(** X9.  Moves neither create nor remove slots: after any sequence of
    attempted moves the timetable has the same slots as before, and a
    single call changes no slot other than its source and destination. *)
Theorem applyMoves_keeps_shape :
  ∀ (moves : list Move) (s : AppState) (t : MultiRoomTimetable),
    timetable s = Some t →
    (∃ t' : MultiRoomTimetable,
       timetable (applyMoves moves s) = Some t'
       ∧ (∀ r, is_Some (lookup_slot t' r) ↔ is_Some (lookup_slot t r))
       ∧ length (timetable_slots t') = length (timetable_slots t))
    ∧ (∀ className from to,
         ∃ t' : MultiRoomTimetable,
           timetable (handleMoveClass className from to s) = Some t'
           ∧ ∀ r, r ≠ from → r ≠ to → lookup_slot t' r = lookup_slot t r).
Proof.
  intros moves s t Ht.
  assert (∀ g r t0,
            (∀ r', is_Some (lookup_slot (alter_slot g r t0) r')
                   ↔ is_Some (lookup_slot t0 r'))
            ∧ length (timetable_slots (alter_slot g r t0))
              = length (timetable_slots t0)) as Halter.
  { intros g r t0. split.
    - intros r'. destruct (decide (r = r')) as [->|Hne].
      + rewrite lookup_slot_alter_eq. apply fmap_is_Some.
      + by rewrite lookup_slot_alter_ne.
    - destruct (lookup_slot t0 r) as [l|] eqn:Hl.
      + destruct (timetable_slots_alter g r t0 l Hl) as (rest & -> & ->). done.
      + rewrite alter_slot_id; [done|]. intros l. by rewrite Hl. }
  split.
  - destruct (applyMoves_related (maxConcurrentClasses s)
                (λ t t', (∀ r, is_Some (lookup_slot t' r) ↔ is_Some (lookup_slot t r))
                         ∧ length (timetable_slots t') = length (timetable_slots t)))
      with (moves := moves) (s := s) (t := t) as (t' & Ht' & Hkeep); try done.
    + intros t0 t1 t2 [H01 L01] [H12 L12]. split; [|congruence].
      intros r. by rewrite H12.
    + intros c from to t0 t1 Hmoved.
      apply moveUpdater_Moved in Hmoved
        as (toL & fromL & i & _ & _ & _ & _ & _ & _ & _ & _ & ->).
      split.
      * intros r. by rewrite !(proj1 (Halter _ _ _)).
      * by rewrite !(proj2 (Halter _ _ _)).
    + exists t'. by destruct Hkeep.
  - intros c from to.
    destruct (handleMoveClass_cases c from to s)
      as [->|[[message ->]|(t0 & t' & Ht0 & Hmoved & ->)]];
      [by exists t | by exists t |].
    rewrite Ht in Ht0. injection Ht0 as <-. exists t'. split; [done|].
    intros r Hfrom Hto.
    apply moveUpdater_Moved in Hmoved
      as (toL & fromL & i & _ & _ & _ & _ & _ & _ & _ & _ & ->).
    by rewrite !lookup_slot_alter_ne.
Qed.

Lemma applyMoves_keeps_shape_witness :
  ∃ t' : MultiRoomTimetable,
    timetable (applyMoves [("Grade 3 - A", slot1, slot2);
                           ("Grade 1 - A", slot1, slot2)] sampleState)
      = Some t'
    ∧ length (timetable_slots t') = length (timetable_slots sampleTimetable).
Proof.
  destruct (applyMoves_keeps_shape
              [("Grade 3 - A", slot1, slot2); ("Grade 1 - A", slot1, slot2)]
              sampleState sampleTimetable eq_refl)
    as ((t' & Ht' & _ & Hlength) & _).
  exists t'. split; [exact Ht' | exact Hlength].
Defined.

Section SingleMove.

Implicit Types (t : MultiRoomTimetable) (r : SlotRef).

(** The conditions under which the updater applies a move, and what it
    returns then. *)
Lemma moveUpdater_accepts (maxC : Z) (className : string) (from to : SlotRef) t
    (toL fromL : list string) (i : nat) :
  lookup_slot t to = Some toL →
  className ∉ toL →
  Z.of_nat (length toL) < maxC →
  grade12_conflict (getGradeFromClassName className)
    (getGradeFromClassName <$> toL) = false →
  grade34_conflict (getGradeFromClassName className)
    (getGradeFromClassName <$> toL) = false →
  lookup_slot t from = Some fromL →
  list_find (λ c, c = className) fromL = Some (i, className) →
  moveUpdater maxC className from to t
  = Moved (alter_slot (λ l, sort_strings (l ++ [className])) to
             (alter_slot (delete i) from t)).
Proof.
  intros Hto Hnotin Hroom H12 H34 Hfrom Hfind.
  unfold moveUpdater. rewrite Hto, Hfrom, H12, H34.
  rewrite (bool_decide_eq_false_2 _ Hnotin).
  rewrite bool_decide_eq_false_2 by lia.
  unfold findIndex. rewrite Hfind. simpl. by rewrite alter_slot_compose.
Qed.

Lemma list_find_elem_of (className : string) (l : list string) :
  className ∈ l → ∃ i, list_find (λ c, c = className) l = Some (i, className).
Proof.
  intros Hin.
  destruct (list_find (λ c, c = className) l) as [[i c]|] eqn:Hfind.
  - exists i. by pose proof Hfind as (_ & -> & _)%list_find_Some.
  - apply list_find_None in Hfind. rewrite Forall_forall in Hfind.
    by destruct (Hfind className Hin).
Qed.

(** A class that shared a slot with others may come back to them. *)
Lemma grades_apart_return (className : string) (l : list string) (i : nat) :
  grades_apart l = true →
  l !! i = Some className →
  grade12_conflict (getGradeFromClassName className)
    (getGradeFromClassName <$> delete i l) = false
  ∧ grade34_conflict (getGradeFromClassName className)
      (getGradeFromClassName <$> delete i l) = false.
Proof.
  intros Hapart Hi.
  assert (∀ g, getGradeFromClassName className = Some g →
               includesGrade g (getGradeFromClassName <$> l) = true) as Hown.
  { intros g Hg. eapply includesGrade_occupant; [|done].
    by eapply list_elem_of_lookup_2. }
  assert (∀ g, includesGrade g (getGradeFromClassName <$> delete i l) = true →
               includesGrade g (getGradeFromClassName <$> l) = true) as Hsub.
  { intros g. apply includesGrade_sublist, sublist_delete. }
  unfold grades_apart in Hapart. unfold grade12_conflict, grade34_conflict.
  apply andb_true_iff in Hapart as [Ha12 Ha34].
  apply negb_true_iff, andb_false_iff in Ha12, Ha34.
  split; apply orb_false_iff; split; apply andb_false_iff;
    case_bool_decide as Hg; auto; right;
    specialize (Hown _ Hg);
    match goal with
    | |- includesGrade ?g _ = false =>
        destruct (includesGrade g (getGradeFromClassName <$> delete i l)) eqn:E;
        [apply Hsub in E; destruct Ha12, Ha34; congruence | done]
    end.
Qed.

End SingleMove.



(** X11.  Repeating a call of [handleMoveClass] with the same arguments
    changes nothing more: a move that was applied finds the class already
    in the destination, and a refused one is refused again with the same
    message. *)
Theorem handleMoveClass_idempotent :
  ∀ (s : AppState) (className : string) (from to : SlotRef),
    handleMoveClass className from to (handleMoveClass className from to s)
    = handleMoveClass className from to s.
Proof.
  intros s c from to.
  destruct (sameSlot from to) eqn:Hsame.
  { assert (∀ s0, handleMoveClass c from to s0 = s0) as Hid.
    { intros s0. unfold handleMoveClass. by rewrite Hsame. }
    by rewrite !Hid. }
  destruct (timetable s) as [t|] eqn:Ht.
  2:{ assert (handleMoveClass c from to s = s) as Hid.
      { unfold handleMoveClass. by rewrite Hsame, Ht. }
      by rewrite !Hid. }
  destruct (moveUpdater (maxConcurrentClasses s) c from to t)
    as [|message|t'] eqn:Hupd.
  - assert (handleMoveClass c from to s = s) as Hid.
    { unfold handleMoveClass. by rewrite Hsame, Ht, Hupd. }
    by rewrite !Hid.
  - assert (handleMoveClass c from to s = setError (Some message) s) as ->.
    { unfold handleMoveClass. by rewrite Hsame, Ht, Hupd. }
    unfold handleMoveClass. rewrite Hsame. simpl. rewrite Ht, Hupd.
    by destruct s.
  - assert (handleMoveClass c from to s
            = setTimetable (Some t') (setError None s)) as ->.
    { unfold handleMoveClass. by rewrite Hsame, Ht, Hupd. }
    unfold handleMoveClass. rewrite Hsame. simpl.
    apply moveUpdater_Moved in Hupd
      as (toL & fromL & i & Hne & Hto & _ & _ & _ & _ & _ & _ & ->).
    unfold moveUpdater.
    rewrite lookup_slot_alter_eq, lookup_slot_alter_ne, Hto by done. simpl.
    rewrite bool_decide_eq_true_2; [reflexivity|].
    unfold sort_strings. rewrite merge_sort_Permutation.
    apply elem_of_app. right. by left.
Qed.

(** X12.  Dragging a class to another slot and back restores the
    timetable: when the first move is accepted, the two slots were sorted,
    and the source slot held the class once, within the maximum and with
    its grades apart, the second move is accepted too and the timetable is
    the one before the first move, with no message shown. *)
Theorem handleMoveClass_and_back :
  ∀ (s : AppState) (t : MultiRoomTimetable) (className : string)
    (from to : SlotRef) (toSlotClasses fromSlotClasses : list string),
    timetable s = Some t →
    from ≠ to →
    lookup_slot t to = Some toSlotClasses →
    className ∉ toSlotClasses →
    Z.of_nat (length toSlotClasses) < maxConcurrentClasses s →
    grade12_conflict (getGradeFromClassName className)
      (getGradeFromClassName <$> toSlotClasses) = false →
    grade34_conflict (getGradeFromClassName className)
      (getGradeFromClassName <$> toSlotClasses) = false →
    lookup_slot t from = Some fromSlotClasses →
    className ∈ fromSlotClasses →
    NoDup fromSlotClasses →
    Z.of_nat (length fromSlotClasses) ≤ maxConcurrentClasses s →
    grades_apart fromSlotClasses = true →
    Sorted String.le fromSlotClasses →
    Sorted String.le toSlotClasses →
    handleMoveClass className to from (handleMoveClass className from to s)
    = setError None s.
Proof.
  intros s t c from to toL fromL Ht Hne Hto Hnotin Hroom H12 H34 Hfrom Hin
    Hnd Hlen Hapart Hsfrom Hsto.
  destruct (list_find_elem_of c fromL Hin) as (i & Hfind).
  pose proof Hfind as (Hi & _ & _)%list_find_Some.
  set (SP := λ l : list string, sort_strings (l ++ [c])).
  set (t3 := alter_slot SP to (alter_slot (delete i) from t)).
  assert (handleMoveClass c from to s = setTimetable (Some t3) (setError None s))
    as ->.
  { unfold handleMoveClass. rewrite (sameSlot_false _ _ Hne), Ht.
    by rewrite (moveUpdater_accepts _ _ _ _ _ toL fromL i). }
  assert (lookup_slot t3 to = Some (SP toL)) as Hto3.
  { unfold t3. by rewrite lookup_slot_alter_eq, lookup_slot_alter_ne, Hto. }
  assert (lookup_slot t3 from = Some (delete i fromL)) as Hfrom3.
  { unfold t3. rewrite lookup_slot_alter_ne by done.
    by rewrite lookup_slot_alter_eq, Hfrom. }
  assert (c ∈ SP toL) as Hin3.
  { unfold SP, sort_strings. rewrite merge_sort_Permutation.
    apply elem_of_app. right. by left. }
  destruct (list_find_elem_of c (SP toL) Hin3) as (j & Hfind3).
  pose proof Hfind3 as (Hj & _ & _)%list_find_Some.
  destruct (grades_apart_return c fromL i Hapart Hi) as [H12' H34'].
  assert (c ∉ delete i fromL) as Hnotin3.
  { rewrite (delete_Permutation fromL i c Hi) in Hnd.
    by apply NoDup_cons in Hnd as [? _]. }
  assert (Z.of_nat (length (delete i fromL)) < maxConcurrentClasses s) as Hroom3.
  { rewrite length_delete by eauto.
    assert (length fromL ≠ 0%nat) by (by destruct fromL). lia. }
  unfold handleMoveClass. rewrite sameSlot_false by done. simpl.
  rewrite (moveUpdater_accepts _ _ _ _ _ (delete i fromL) (SP toL) j)
    by done.
  fold SP. unfold t3.
  rewrite alter_slot_compose.
  rewrite (alter_slot_commute (delete j ∘ SP) (delete i) to from) by done.
  rewrite alter_slot_compose.
  rewrite (alter_slot_id (delete j ∘ SP) to t).
  2:{ intros l. rewrite Hto. intros [= <-]. simpl.
      by apply sort_strings_delete. }
  rewrite (alter_slot_id (SP ∘ delete i) from t).
  2:{ intros l. rewrite Hfrom. intros [= <-]. simpl.
      by apply sort_strings_reinsert. }
  destruct s; simpl in *. by subst.
Qed.

Lemma handleMoveClass_and_back_witness :
  handleMoveClass "Grade 3 - A" slot2 slot1
    (handleMoveClass "Grade 3 - A" slot1 slot2 sampleState)
  = setError None sampleState.
Proof.
  apply (handleMoveClass_and_back sampleState sampleTimetable "Grade 3 - A"
           slot1 slot2 ["Grade 2 - A"] ["Grade 1 - A"; "Grade 3 - A"]).
  - reflexivity.
  - discriminate.
  - reflexivity.
  - apply (bool_decide_unpack _). vm_compute. exact I.
  - simpl. lia.
  - reflexivity.
  - reflexivity.
  - reflexivity.
  - apply (bool_decide_unpack _). vm_compute. exact I.
  - apply (bool_decide_unpack _). vm_compute. exact I.
  - simpl. lia.
  - reflexivity.
  - apply (bool_decide_unpack _). vm_compute. exact I.
  - apply (bool_decide_unpack _). vm_compute. exact I.
Defined.

(* ===================================================================== *)
(** ** The grid of a room and the editor *)
(* ===================================================================== *)

(** X13.  The check made while dragging and the validator of the drop
    agree: for a destination that exists and does not hold the class, a
    drop is marked invalid exactly when [handleMoveClass] would refuse the
    move with a message. *)
Theorem isValidDrop_agrees_with_validator :
  ∀ (maxC : Z) (className : string) (from to : SlotRef)
    (t : MultiRoomTimetable) (toSlotClasses : list string),
    lookup_slot t to = Some toSlotClasses →
    className ∉ toSlotClasses →
    (isValidDrop maxC className toSlotClasses = false
     ↔ ∃ message, moveUpdater maxC className from to t = Rejected message).
Proof.
  intros maxC c from to t toL Hto Hnotin.
  unfold isValidDrop, moveUpdater, grade12_conflict, grade34_conflict.
  rewrite Hto, (bool_decide_eq_false_2 _ Hnotin).
  destruct (bool_decide (Z.of_nat (length toL) >= maxC)); simpl.
  { split; [by eexists | done]. }
  destruct (bool_decide (getGradeFromClassName c = Some 1)
            && includesGrade 2 (getGradeFromClassName <$> toL)); simpl.
  { split; [by eexists | done]. }
  destruct (bool_decide (getGradeFromClassName c = Some 2)
            && includesGrade 1 (getGradeFromClassName <$> toL)); simpl.
  { split; [by eexists | done]. }
  destruct (bool_decide (getGradeFromClassName c = Some 3)
            && includesGrade 4 (getGradeFromClassName <$> toL)); simpl.
  { split; [by eexists | done]. }
  destruct (bool_decide (getGradeFromClassName c = Some 4)
            && includesGrade 3 (getGradeFromClassName <$> toL)); simpl.
  { split; [by eexists | done]. }
  split; [done|]. intros [message Hrej].
  destruct (lookup_slot t from) as [fromL|]; [|done].
  by destruct (findIndex c fromL).
Qed.

Lemma isValidDrop_agrees_with_validator_witness :
  isValidDrop 3 "Grade 1 - A" ["Grade 2 - A"] = false
  ↔ ∃ message,
      moveUpdater 3 "Grade 1 - A" slot1 slot2 sampleTimetable = Rejected message.
Proof.
  apply (isValidDrop_agrees_with_validator 3 "Grade 1 - A" slot1 slot2
           sampleTimetable ["Grade 2 - A"]).
  - reflexivity.
  - apply (bool_decide_unpack _). vm_compute. exact I.
Defined.

Section Gesture.

Lemma handleDragOver_fresh (roomName : string)
    (roomTimetable : gmap DayOfWeek (gmap string (list string)))
    (maxC : Z) (className : string) (from : SlotRef)
    (d : DayOfWeek) (sl : string) :
  handleDragOver roomName roomTimetable maxC
    (Some (mkDraggedItem className from)) d sl None
  = if decide (from = mkSlotRef roomName d sl) then None
    else match roomTimetable !! d ≫= λ dayTimetable, dayTimetable !! sl with
         | Some destinationSlot =>
             Some (mkDragOverInfo d sl (isValidDrop maxC className destinationSlot))
         | None => None
         end.
Proof.
  destruct from as [fromRoom fromDay fromSlot]. simpl.
  case_decide as Heq.
  - injection Heq as -> -> ->. by rewrite !bool_decide_eq_true_2.
  - repeat case_bool_decide; subst; done.
Qed.

End Gesture.

(** X14.  A whole gesture on the grid of a room (drag start on a class,
    drag over a cell, drop on it, drag end): on the class's own cell, on a
    cell that does not exist, or on a cell where the drop was marked
    invalid, nothing is moved and no message is shown; on a cell where the
    drop was marked valid the move is handed to [handleMoveClass].  In
    every case the dragged item is released. *)
Theorem drag_and_drop_gesture :
  ∀ (s : AppState) (t : MultiRoomTimetable) (roomName : string)
    (roomTimetable : gmap DayOfWeek (gmap string (list string)))
    (className fromRoom : string) (fromDay : DayOfWeek) (fromSlot : string)
    (toDay : DayOfWeek) (toSlot : string),
    timetable s = Some t →
    t !! roomName = Some roomTimetable →
    let from := mkSlotRef fromRoom fromDay fromSlot in
    let to := mkSlotRef roomName toDay toSlot in
    let s1 := handleClassDragStart className fromRoom fromDay fromSlot s in
    let dragOverInfo :=
      handleDragOver roomName roomTimetable (maxConcurrentClasses s1)
        (draggedItem s1) toDay toSlot None in
    let s2 := handleDragEnd (dropOnCell roomName toDay toSlot dragOverInfo s1) in
    draggedItem s2 = None
    ∧ (from = to → s2 = setDraggedItem None (setError None s))
    ∧ (lookup_slot t to = None → s2 = setDraggedItem None (setError None s))
    ∧ (∀ toSlotClasses,
         from ≠ to → lookup_slot t to = Some toSlotClasses →
         (isValidDrop (maxConcurrentClasses s) className toSlotClasses = false →
          s2 = setDraggedItem None (setError None s))
         ∧ (isValidDrop (maxConcurrentClasses s) className toSlotClasses = true →
            s2 = handleDragEnd (handleMoveClass className from to s1))).
Proof.
  intros s t roomName roomTimetable c fromRoom fromDay fromSlot toDay toSlot
    Ht Hroom from to s1 dragOverInfo s2.
  assert (lookup_slot t to
          = roomTimetable !! toDay ≫= λ dayTimetable, dayTimetable !! toSlot)
    as Hlookup.
  { unfold lookup_slot, to. simpl. by rewrite Hroom. }
  assert (handleDragEnd s1 = setDraggedItem None (setError None s)) as Hend.
  { unfold s1. by destruct s. }
  assert (dragOverInfo
          = if decide (from = to) then None
            else match lookup_slot t to with
                 | Some destinationSlot =>
                     Some (mkDragOverInfo toDay toSlot
                             (isValidDrop (maxConcurrentClasses s) c destinationSlot))
                 | None => None
                 end) as Hinfo.
  { unfold dragOverInfo. rewrite Hlookup. apply handleDragOver_fresh. }
  split_and!.
  - done.
  - intros Heq. unfold s2, dropOnCell. rewrite Hinfo, decide_True by done.
    simpl. done.
  - intros Hnone. unfold s2, dropOnCell. rewrite Hinfo, Hnone.
    case_decide; simpl; done.
  - intros toL Hne Hto. unfold s2, dropOnCell.
    rewrite Hinfo, Hto, decide_False by done. simpl. split; by intros ->.
Qed.

Lemma drag_and_drop_gesture_witness :
  handleDragEnd
    (dropOnCell "Room 1" Monday "Slot 2"
       (handleDragOver "Room 1"
          {[ Monday :=
               {[ "Slot 1" := ["Grade 1 - A"; "Grade 3 - A"];
                  "Slot 2" := ["Grade 2 - A"] ]} ]}
          3 (Some (mkDraggedItem "Grade 1 - A" slot1)) Monday "Slot 2" None)
       (handleClassDragStart "Grade 1 - A" "Room 1" Monday "Slot 1" sampleState))
  = setDraggedItem None (setError None sampleState).
Proof.
  pose proof (drag_and_drop_gesture sampleState sampleTimetable "Room 1"
                {[ Monday :=
                     {[ "Slot 1" := ["Grade 1 - A"; "Grade 3 - A"];
                        "Slot 2" := ["Grade 2 - A"] ]} ]}
                "Grade 1 - A" "Room 1" Monday "Slot 1" Monday "Slot 2"
                eq_refl eq_refl) as Hgesture.
  cbv zeta in Hgesture. destruct Hgesture as (_ & _ & _ & Hcell).
  destruct (Hcell ["Grade 2 - A"]) as [Hinvalid _].
  - discriminate.
  - reflexivity.
  - apply Hinvalid. reflexivity.
Defined.

(** X15.  While the pointer stays over one cell, repeated drag-over events
    leave the recorded cell and validity as they are after the first. *)
Theorem handleDragOver_repeated :
  ∀ (roomName : string)
    (roomTimetable : gmap DayOfWeek (gmap string (list string)))
    (maxC : Z) (draggedItem : option DraggedItem) (d : DayOfWeek)
    (sl : string) (dragOverInfo : option DragOverInfo),
    let once :=
      handleDragOver roomName roomTimetable maxC draggedItem d sl dragOverInfo in
    handleDragOver roomName roomTimetable maxC draggedItem d sl once = once.
Proof.
  intros roomName roomTimetable maxC [[c [fromRoom fromDay fromSlot]]|] d sl info;
    [|done].
  simpl.
  destruct (bool_decide (fromRoom = roomName) && bool_decide (fromDay = d)
            && bool_decide (fromSlot = sl)) eqn:Hown; [done|].
  destruct (match info with
            | Some i => bool_decide (over_day i = d) && bool_decide (over_slot i = sl)
            | None => false
            end) eqn:Hsame.
  { by rewrite Hsame. }
  destruct (roomTimetable !! d ≫= _) as [dest|] eqn:Hdest.
  - simpl. by rewrite !bool_decide_eq_true_2.
  - by rewrite Hsame.
Qed.

(* ===================================================================== *)
(** ** More on the generation call *)
(* ===================================================================== *)

(** X16.  The check of the response counts top-level keys and looks at
    nothing else: it passes exactly for an object with as many keys as
    rooms, whatever their names and values, and for an array with as many
    elements as rooms; and [generateTimetable] returns a value exactly when
    the collaborator's parsed answer is such a value. *)
Theorem hasExpectedStructure_counts_keys_only :
  ∀ (ai : Collaborator) (gradeCounts : GradeCounts)
    (maxConcurrentClasses sessionsPerDay : Z) (includedDays : list DayOfWeek)
    (numberOfRooms : Z) (v : JsValue),
    let counted :=
      (∃ fields, v = JObject fields ∧ Z.of_nat (size fields) = numberOfRooms)
      ∨ (∃ elements, v = JArray elements
                     ∧ Z.of_nat (length elements) = numberOfRooms) in
    (hasExpectedStructure v numberOfRooms = true ↔ counted)
    ∧ (generateTimetable ai gradeCounts maxConcurrentClasses sessionsPerDay
         includedDays numberOfRooms = inr v
       ↔ ai (generatePrompt gradeCounts maxConcurrentClasses sessionsPerDay
               includedDays numberOfRooms)
            (generateResponseSchema sessionsPerDay includedDays numberOfRooms)
           = ApiParsed v
         ∧ counted).
Proof.
  intros ai gc maxC sessions days rooms v counted.
  assert (hasExpectedStructure v rooms = true ↔ counted) as Hcheck.
  { unfold hasExpectedStructure, counted.
    destruct v as [|b|n|str|elements|fields]; simpl;
      rewrite ?bool_decide_eq_true; split;
      try done; try (intros [(? & [=] & _)|(? & [=] & _)]; fail).
    - intros [= <-]. right. by eexists.
    - intros [(? & [=] & _)|(? & [= <-] & <-)]. done.
    - intros [= <-]. left. by eexists.
    - intros [(? & [= <-] & <-)|(? & [=] & _)]. done. }
  split; [done|]. unfold generateTimetable.
  destruct (ai _ _) as [[message|]|parsedData]; simpl.
  - split; [done | by intros [[=] _]].
  - split; [done | by intros [[=] _]].
  - destruct (hasExpectedStructure parsedData rooms) eqn:E.
    + split.
      * intros [= ->]. split; [done|]. by apply Hcheck.
      * by intros [[= ->] _].
    + split; [done|]. intros [[= ->] Hc]. apply Hcheck in Hc. congruence.
Qed.

(** X17.  A permitted generation request always ends with the loading flag
    off and the settings as they were; a failed call of the collaborator
    clears the timetable and shows [Failed to generate timetable: ] followed
    by the error's own message, or the unknown-error text when what was
    thrown is not an error; [generateTimetable] never rejects with anything
    but an error, so the text [An unexpected error occurred.] is never
    shown. *)
Theorem handleGenerateClick_outcomes :
  ∀ (ai : Collaborator) (s : AppState),
    canGenerate s = true →
    let prompt :=
      generatePrompt (gradeCounts s) (maxConcurrentClasses s)
        (sessionsPerDay s) (includedDays s) (numberOfRooms s) in
    let schema :=
      generateResponseSchema (sessionsPerDay s) (includedDays s)
        (numberOfRooms s) in
    let outcome :=
      generateTimetable ai (gradeCounts s) (maxConcurrentClasses s)
        (sessionsPerDay s) (includedDays s) (numberOfRooms s) in
    let s' := handleGenerateClick ai s in
    isLoading s' = false
    ∧ outcome ≠ inl ThrownOther
    ∧ error s' ≠ Some "An unexpected error occurred."
    ∧ (error s' = None ↔ ∃ v, outcome = inr v)
    ∧ (∀ message, ai prompt schema = ApiThrew (ThrownError message) →
         error s' = Some ("Failed to generate timetable: " +:+ message)
         ∧ timetable s' = None)
    ∧ (ai prompt schema = ApiThrew ThrownOther →
         error s'
         = Some "An unknown error occurred while generating the timetable."
         ∧ timetable s' = None).
Proof.
  intros ai s Hcan prompt schema outcome s'.
  assert (∀ message,
            "Failed to generate timetable: " +:+ message
            ≠ "An unexpected error occurred.") as Hdiff.
  { intros message. rewrite !string_app_cons. discriminate. }
  unfold s', handleGenerateClick. rewrite Hcan. simpl. fold outcome.
  unfold outcome, generateTimetable. fold prompt schema.
  assert (∀ (e : option string) (r : Thrown + JsValue),
            e ≠ None → (∀ v, r ≠ inr v) → (e = None ↔ ∃ v, r = inr v)) as Hfail.
  { intros e r He Hr. split; [done|]. intros [v Hv]. by destruct (Hr v). }
  destruct (ai prompt schema) as [[message|]|parsedData]; simpl;
    [| |destruct (hasExpectedStructure parsedData (numberOfRooms s)); simpl];
    split_and!;
    try done;
    try (by apply Hfail);
    try (intros H; injection H as H; by apply Hdiff in H);
    try (by intros ? [= <-]).
  split; [by eexists | done].
Qed.

(** A collaborator whose call fails. *)
Lemma handleGenerateClick_outcomes_witness :
  error (handleGenerateClick (λ _ _, ApiThrew (ThrownError "quota exceeded"))
           sampleState)
    = Some "Failed to generate timetable: quota exceeded"
  ∧ timetable (handleGenerateClick
                 (λ _ _, ApiThrew (ThrownError "quota exceeded")) sampleState)
    = None.
Proof.
  pose proof (handleGenerateClick_outcomes
                (λ _ _, ApiThrew (ThrownError "quota exceeded")) sampleState
                eq_refl) as Hout.
  cbv zeta in Hout. destruct Hout as (_ & _ & _ & _ & Hthrown & _).
  apply (Hthrown "quota exceeded"). reflexivity.
Defined.

(* ===================================================================== *)
(** ** More on the shape descriptor and the brief *)
(* ===================================================================== *)

Section Filling.

(** A dictionary filled by a loop that sets [key i] to [v] for each [i] of
    a list. *)
Context {I V : Type} (key : I → string) (v : V).

Local Abbreviation filled_by l :=
  (foldl (λ (props : gmap string V) i, <[key i := v]> props) ∅ l).

Lemma filled_by_lookup (l : list I) (k : string) :
  filled_by l !! k = if decide (k ∈ key <$> l) then Some v else None.
Proof.
  induction l as [|i l IH] using rev_ind; [done|].
  rewrite foldl_snoc, fmap_app. simpl.
  destruct (decide (k = key i)) as [->|Hne].
  - rewrite lookup_insert_eq, decide_True; [done|].
    apply elem_of_app. right. by left.
  - rewrite lookup_insert_ne, IH by done.
    repeat case_decide; try done.
    + destruct H0. apply elem_of_app. by left.
    + apply elem_of_app in H0 as [?|Hk%list_elem_of_singleton]; done.
Qed.

Lemma filled_by_size (l : list I) :
  NoDup (key <$> l) → size (filled_by l) = length l.
Proof.
  induction l as [|i l IH] using rev_ind; [done|].
  rewrite fmap_app, NoDup_app, foldl_snoc, length_app. simpl.
  intros (Hl & Hdisj & _).
  rewrite map_size_insert_None, IH; [lia | done |].
  rewrite filled_by_lookup, decide_False; [done|].
  intros Hin. apply (Hdisj _ Hin). by left.
Qed.

End Filling.

Section MoreBuilder.

#[local] Instance slotName_inj : Inj (=) (=) slotName.
Proof.
  intros i j Heq. unfold slotName in Heq. by apply (inj _), (inj pretty) in Heq.
Qed.

#[local] Instance day_name_inj : Inj (=) (=) day_name.
Proof. by intros [] [] Heq. Qed.


Lemma is_substring_pieces (before middle after : list string) :
  is_substring (concat_strings middle)
    (concat_strings (before ++ middle ++ after)).
Proof.
  exists (concat_strings before), (concat_strings after).
  by rewrite !concat_strings_app.
Qed.

End MoreBuilder.

(** X18.  The descriptor of a room has the full rectangular shape: its
    properties are exactly the names of the active days, all required; each
    day is an object whose properties are exactly [Slot 1] to [Slot N], all
    required, each an array of strings.  With no session there is no slot
    key, and a repeated day is one key. *)
Theorem generateSingleRoomResponseSchema_shape :
  ∀ (sessionsPerDay : Z) (includedDays : list DayOfWeek),
    ∃ (dayProperties slotProperties : gmap string Schema),
      let requiredSlots := slotName <$> seqZ 1 sessionsPerDay in
      let daySchema := SchemaObject slotProperties requiredSlots in
      generateSingleRoomResponseSchema sessionsPerDay includedDays
        = SchemaObject dayProperties (day_name <$> includedDays)
      ∧ (∀ k, dayProperties !! k
              = if decide (k ∈ day_name <$> includedDays)
                then Some daySchema else None)
      ∧ (∀ k, slotProperties !! k
              = if decide (k ∈ requiredSlots)
                then Some (SchemaArray SchemaString) else None)
      ∧ size slotProperties = Z.to_nat sessionsPerDay
      ∧ NoDup requiredSlots
      ∧ (NoDup includedDays → size dayProperties = length includedDays).
Proof.
  intros sessions days. eexists _, _. split; [reflexivity|].
  unfold for_1_to. split_and!.
  - intros k. apply filled_by_lookup.
  - intros k. apply filled_by_lookup.
  - rewrite filled_by_size, length_seqZ; [done|].
    apply (@NoDup_fmap_2 _ _ slotName slotName_inj), NoDup_seqZ.
  - apply (@NoDup_fmap_2 _ _ slotName slotName_inj), NoDup_seqZ.
  - intros Hnd. apply filled_by_size.
    by apply (@NoDup_fmap_2 _ _ day_name day_name_inj).
Qed.


(** X20.  The brief states, for each of the five grades, the line
    [- Grade g: n classes] with the count of that grade, and the sentence
    that gives the maximum number of classes in a slot. *)
Theorem generatePrompt_states_counts :
  ∀ (gradeCounts : GradeCounts) (maxConcurrentClasses sessionsPerDay : Z)
    (includedDays : list DayOfWeek) (numberOfRooms : Z),
    let prompt :=
      generatePrompt gradeCounts maxConcurrentClasses sessionsPerDay
        includedDays numberOfRooms in
    (∀ g : Grade,
        is_substring
          ("- Grade " +:+ pretty (grade_number g) +:+ ": "
           +:+ pretty (gradeCounts g) +:+ " classes") prompt)
    ∧ is_substring
        ("        - In any single time slot (e.g., Room 1, Monday Slot 1), you cannot schedule more than "
         +:+ pretty maxConcurrentClasses +:+ " classes in total.") prompt
    ∧ is_substring
        ("        - There are " +:+ pretty numberOfRooms +:+ " rooms available, named ")
        prompt.
Proof.
  intros gc maxC sessions days rooms prompt. unfold prompt, generatePrompt.
  split_and!.
  - intros g.
    apply (is_substring_trans _ (prompt_classList gc)).
    + apply is_substring_join. unfold gradeCounts_entries, GRADES.
      destruct g; simpl; set_solver.
    + apply is_substring_concat. unfold prompt_pieces.
      repeat first [apply list_elem_of_here | apply list_elem_of_further].
  - set (ps := prompt_pieces gc maxC sessions days rooms).
    pose proof (is_substring_pieces (take 57 ps)
                  (take 3 (drop 57 ps)) (drop 60 ps)) as Hsub.
    assert (take 57 ps ++ take 3 (drop 57 ps) ++ drop 60 ps = ps) as Hps
      by reflexivity.
    rewrite Hps in Hsub. simpl in Hsub.
    by rewrite string_app_nil_r in Hsub.
  - set (ps := prompt_pieces gc maxC sessions days rooms).
    pose proof (is_substring_pieces (take 30 ps)
                  (take 3 (drop 30 ps)) (drop 33 ps)) as Hsub.
    assert (take 30 ps ++ take 3 (drop 30 ps) ++ drop 33 ps = ps) as Hps
      by reflexivity.
    rewrite Hps in Hsub. simpl in Hsub.
    by rewrite string_app_nil_r in Hsub.
Qed.

(* ===================================================================== *)
(** ** Grades outside the declared type, and colours *)
(* ===================================================================== *)

Section Digits.

Lemma is_digit_value (c : Ascii.ascii) :
  is_digit c = true → 0 ≤ digit_value c ≤ 9.
Proof.
  unfold is_digit, digit_value.
  rewrite andb_true_iff, !Nat.leb_le. lia.
Qed.

End Digits.

(** X21.  The grade read off a class name is any digit from 0 to 9, not
    only 1 to 5 ([Grade 0 - A] gives 0 and [Grade 7 - A] gives 7); a class
    whose grade is none of 1, 2, 3, 4 is never refused for its grade and is
    shown in the default colour unless its grade is 5. *)
Theorem getGradeFromClassName_range :
  ∀ (className : string) (g : Z),
    getGradeFromClassName className = Some g →
    0 ≤ g ≤ 9
    ∧ (g ≠ 1 → g ≠ 2 → g ≠ 3 → g ≠ 4 →
       ∀ destinationGrades,
         grade12_conflict (getGradeFromClassName className) destinationGrades = false
         ∧ grade34_conflict (getGradeFromClassName className) destinationGrades = false)
    ∧ (g = 0 ∨ 6 ≤ g →
       getGradeColor (getGradeFromClassName className) = getGradeColor None).
Proof.
  intros className g Hg. split; [|split].
  - unfold getGradeFromClassName in Hg.
    destruct (match_Grade_digit className) as [d|] eqn:E; [|done].
    injection Hg as <-.
    apply match_Grade_digit_Some in E as (i & (pre & post & _ & _ & Hd) & _).
    by apply is_digit_value.
  - intros H1 H2 H3 H4 grades. rewrite Hg.
    unfold grade12_conflict, grade34_conflict.
    rewrite !bool_decide_eq_false_2 by (intros [= ?]; done). done.
  - intros Hout. rewrite Hg.
    destruct g as [|p|p]; [done| |lia].
    destruct Hout as [?|Hout]; [done|].
    do 3 (destruct p as [p|p|]; try done; try lia).
Qed.

Lemma getGradeFromClassName_range_witness :
  getGradeFromClassName "Grade 7 - A" = Some 7
  ∧ getGradeFromClassName "Grade 0 - A" = Some 0
  ∧ isValidDrop 3 "Grade 7 - A" ["Grade 1 - A"; "Grade 3 - A"] = true
  ∧ getGradeColor (getGradeFromClassName "Grade 7 - A") = getGradeColor None.
Proof.
  destruct (getGradeFromClassName_range "Grade 7 - A" 7 eq_refl)
    as (_ & _ & Hcolour).
  split_and!; [reflexivity | reflexivity | reflexivity |].
  apply Hcolour. right. lia.
Defined.

(** X22.  The five grades have five different colours, and the colour of
    anything else (no grade, or a digit outside 1 to 5) is the default one,
    which is none of the five. *)
Theorem getGradeColor_distinct :
  ∀ g g' : Z,
    1 ≤ g ≤ 5 →
    1 ≤ g' ≤ 5 →
    (getGradeColor (Some g) = getGradeColor (Some g') → g = g')
    ∧ getGradeColor (Some g) ≠ getGradeColor None
    ∧ (∀ h, ¬ 1 ≤ h ≤ 5 → getGradeColor (Some h) = getGradeColor None).
Proof.
  intros g g' Hg Hg'.
  assert (g = 1 ∨ g = 2 ∨ g = 3 ∨ g = 4 ∨ g = 5) as Hcases by lia.
  assert (g' = 1 ∨ g' = 2 ∨ g' = 3 ∨ g' = 4 ∨ g' = 5) as Hcases' by lia.
  split_and!.
  - destruct Hcases as [->|[->|[->|[->| ->]]]];
      destruct Hcases' as [->|[->|[->|[->| ->]]]]; simpl; intros Heq;
      try done; discriminate Heq.
  - destruct Hcases as [->|[->|[->|[->| ->]]]]; simpl; discriminate.
  - intros h Hh. destruct h as [|p|p]; [done| |done].
    do 3 (destruct p as [p|p|]; try done; try lia).
Qed.

Lemma getGradeColor_distinct_witness :
  getGradeColor (getGradeFromClassName "Grade 1 - A")
  ≠ getGradeColor (getGradeFromClassName "Grade 2 - A").
Proof.
  destruct (getGradeColor_distinct 1 2) as (Hinj & _); [lia | lia |].
  intros Heq. specialize (Hinj Heq). lia.
Defined.

(* ===================================================================== *)
(** ** Typing a number back into its input *)
(* ===================================================================== *)

Section ParseInt.









End ParseInt.



(* ===================================================================== *)
(** ** Counts and re-entry *)
(* ===================================================================== *)

(** X24.  Changing the count of a grade sets that count and no other, moves
    the total by the difference, and leaves the rest of the state alone. *)
Theorem handleGradeCountChange_total :
  ∀ (s : AppState) (grade : Grade) (count : Z),
    let s' := handleGradeCountChange grade count s in
    gradeCounts s' grade = count
    ∧ (∀ g, g ≠ grade → gradeCounts s' g = gradeCounts s g)
    ∧ totalClasses s' = totalClasses s - gradeCounts s grade + count
    ∧ maxPossibleClasses s' = maxPossibleClasses s
    ∧ timetable s' = timetable s
    ∧ error s' = error s.
Proof.
  intros s grade count s'. unfold s', handleGradeCountChange. split_and!.
  - simpl. by rewrite decide_True.
  - intros g Hne. simpl. by rewrite decide_False.
  - rewrite !totalClasses_sum. simpl. destruct grade; simpl; lia.
  - done.
  - done.
  - done.
Qed.

(** X25.  While a generation call is outstanding the trigger is disabled:
    another click and any attempted move change nothing; once the call has
    settled, the trigger is enabled again, so the request can be repeated. *)
Theorem handleGenerateClick_reentry :
  ∀ (ai ai' : Collaborator) (s : AppState) (moves : list Move),
    canGenerate s = true →
    let loading := handleGenerateClick_begin s in
    canGenerate loading = false
    ∧ generateButton_disabled loading = true
    ∧ handleGenerateClick ai' loading = loading
    ∧ applyMoves moves loading = loading
    ∧ canGenerate (handleGenerateClick ai s) = true.
Proof.
  intros ai ai' s moves Hcan loading.
  assert (canGenerate loading = false) as Hloading.
  { unfold loading, canGenerate. simpl. by rewrite andb_false_r. }
  split_and!.
  - done.
  - unfold generateButton_disabled. by rewrite Hloading.
  - unfold handleGenerateClick. by rewrite Hloading.
  - by apply applyMoves_no_timetable.
  - pose proof (handleGenerateClick_parameters ai s)
      as (Hg & Hm & Hse & Hr & Hd & _).
    pose proof (handleGenerateClick_isLoading ai s Hcan) as Hl.
    simpl in *. unfold canGenerate in *.
    unfold totalClasses, maxPossibleClasses in *.
    rewrite Hg, Hm, Hse, Hr, Hd, Hl.
    apply andb_true_iff in Hcan as [Hcan _]. by rewrite Hcan.
Qed.

Lemma handleGenerateClick_reentry_witness :
  handleGenerateClick emptyAnswer (handleGenerateClick_begin sampleState)
    = handleGenerateClick_begin sampleState
  ∧ canGenerate (handleGenerateClick emptyAnswer sampleState) = true.
Proof.
  pose proof (handleGenerateClick_reentry emptyAnswer emptyAnswer sampleState
                [] eq_refl) as Hre.
  cbv zeta in Hre. destruct Hre as (_ & _ & Hclick & _ & Hagain).
  split; [exact Hclick | exact Hagain].
Defined.
